(** * PlayCanvas engine: the plane shape and the audio-source component

    A shallow embedding of

    - [src/core/shape/plane.js]: class [Plane], methods [intersectsLine]
      and [intersectsRay];
    - [src/framework/components/audio-source/component.js]: class
      [AudioSourceComponent], all of its methods.

    JavaScript numbers are IEEE-754 doubles and are modelled by Rocq's
    primitive floats, so that [!==], [>=], [<=] and [/] behave on NaN and
    signed zeros as they do in the engine.  JavaScript objects that are
    shared by reference (vectors, the [sources] dictionaries, asset
    handles, the closure of a load batch) live in explicit stores and are
    named by their address, so that aliasing is visible.  Methods are
    functions from state to state; what the component asks of its
    collaborators (calls on the audio backend, load requests to the asset
    registry) is appended to logs kept in the state, and what the registry
    answers arrives as an [Event].

    The definitions come first: vectors, [Plane], [AudioSource].  The
    properties follow, for the plane and then for the component: channel
    controller, asset events, resource resolver; then further properties
    of both: the plane on degenerate input and [intersectsRay], the
    methods of the component one by one, the list of assets, the ways a
    batch resolves, and two invariants of the component over every
    sequence of calls and events. *)

From Stdlib Require Import Floats.PrimFloat Floats.FloatAxioms Floats.SpecFloat Floats.FloatOps.
From Stdlib Require Import ZArith Lia.
From stdpp Require Import gmap strings list.

Open Scope string_scope.
Open Scope list_scope.

(** Addresses of heap objects. *)
Abbreviation loc := nat (only parsing).

(* ===================================================================== *)
(** * Vectors *)
(* ===================================================================== *)

Module Vec3.

Record Vec3 := new { x : float; y : float; z : float }.

(** Modelled from the spec: [Vec3] (core/math/vec3.js) is not among the
    sources.  [plane.js] uses two of its methods: [dot], the inner
    product, and [lerp], which stores in the receiver the point at
    parameter [alpha] between [lhs] and [rhs] ("the intersection point
    will be copied into here"). *)
Definition dot (a b : Vec3) : float :=
  (x a * x b + y a * y b + z a * z b)%float.

Definition lerp (lhs rhs : Vec3) (alpha : float) : Vec3 :=
  {| x := (x lhs + alpha * (x rhs - x lhs))%float;
     y := (y lhs + alpha * (y rhs - y lhs))%float;
     z := (z lhs + alpha * (z rhs - z lhs))%float |}.

Definition ZERO : Vec3 := new 0 0 0.

(** Modelled from the spec: the values that [sub2], [mulScalar] and [add]
    of [Vec3] store in their receiver; [intersectsRay] uses them to build
    the intersection point "copied into" its out-parameter. *)
Definition sub (lhs rhs : Vec3) : Vec3 :=
  {| x := (x lhs - x rhs)%float; y := (y lhs - y rhs)%float; z := (z lhs - z rhs)%float |}.

Definition mulScalar (v : Vec3) (scalar : float) : Vec3 :=
  {| x := (x v * scalar)%float; y := (y v * scalar)%float; z := (z v * scalar)%float |}.

Definition add (v rhs : Vec3) : Vec3 :=
  {| x := (x v + x rhs)%float; y := (y v + y rhs)%float; z := (z v + z rhs)%float |}.

End Vec3.

Abbreviation Vec3 := Vec3.Vec3.

(* ===================================================================== *)
(** * plane.js *)
(* ===================================================================== *)

Module Plane.

(** A plane holds *references* to its point and its normal ("the
    constructor takes a reference of this parameter"). *)
Record Plane := { point : loc; normal : loc }.

(** The memory a call runs in: the receiver [this], the vector objects by
    address, and the log of the addresses written, oldest first. *)
Record Mem := {
  this : Plane;
  vecs : gmap loc Vec3;
  writes : list loc
}.

Definition deref (m : Mem) (l : loc) : Vec3 :=
  default Vec3.ZERO (vecs m !! l).

(** [p.lerp(lhs, rhs, alpha)]: every coordinate of the receiver is
    assigned from the same coordinate of [lhs] and [rhs], so reading both
    operands before the store is exact even when the receiver is one of
    them. *)
Definition Vec3_lerp (p lhs rhs : loc) (alpha : float) (m : Mem) : Mem :=
  {| this := this m;
     vecs := <[p := Vec3.lerp (deref m lhs) (deref m rhs) alpha]> (vecs m);
     writes := writes m ++ [p] |}.

(** [intersectsLine(start, end, point)]; the optional third argument is
    [None] when the caller leaves it out. *)
Definition intersectsLine (start end_ : loc) (out : option loc) (m : Mem)
  : Mem * bool :=
  let n := deref m (normal (this m)) in
  let d := (- Vec3.dot n (deref m (point (this m))))%float in
  let d0 := (Vec3.dot n (deref m start) + d)%float in
  let d1 := (Vec3.dot n (deref m end_) + d)%float in
  let t := (d0 / (d0 - d1))%float in
  let intersects := PrimFloat.leb 0 t && PrimFloat.leb t 1 in
  (match intersects, out with
   | true, Some p => Vec3_lerp p start end_ t m
   | _, _ => m
   end,
   intersects).

(** The distance term of [intersectsLine] for the vector at [l]:
    [this.normal.dot(l) + d] with [d = -this.normal.dot(this.point)]. *)
Definition side (m : Mem) (l : loc) : float :=
  (Vec3.dot (deref m (normal (this m))) (deref m l)
   + - Vec3.dot (deref m (normal (this m))) (deref m (point (this m))))%float.

(** A ray holds references to its origin and its direction. *)
Record Ray := { origin : loc; direction : loc }.

(** A store into the vector at [p]. *)
Definition store (p : loc) (v : Vec3) (m : Mem) : Mem :=
  {| this := this m; vecs := <[p := v]> (vecs m); writes := writes m ++ [p] |}.

(** [p.sub2(lhs, rhs)], [p.copy(rhs)], [p.mulScalar(t)] and [p.add(rhs)]:
    each reads its operands from the memory as it is when the call is
    made and stores in the receiver, coordinate by coordinate. *)
Definition Vec3_sub2 (p lhs rhs : loc) (m : Mem) : Mem :=
  store p (Vec3.sub (deref m lhs) (deref m rhs)) m.

Definition Vec3_copy (p rhs : loc) (m : Mem) : Mem :=
  store p (deref m rhs) m.

Definition Vec3_mulScalar (p : loc) (scalar : float) (m : Mem) : Mem :=
  store p (Vec3.mulScalar (deref m p) scalar) m.

Definition Vec3_add (p rhs : loc) (m : Mem) : Mem :=
  store p (Vec3.add (deref m p) (deref m rhs)) m.

(** [intersectsRay(ray, point)].  [tmpVecA] is the address of the vector
    the module allocates once (line 5) and every call reuses. *)
Definition intersectsRay (tmpVecA : loc) (ray : Ray) (out : option loc) (m : Mem)
  : Mem * bool :=
  let m := Vec3_sub2 tmpVecA (point (this m)) (origin ray) m in
  let pointToOrigin := tmpVecA in
  let t := (Vec3.dot (deref m (normal (this m))) (deref m pointToOrigin)
            / Vec3.dot (deref m (normal (this m))) (deref m (direction ray)))%float in
  let intersects := PrimFloat.leb 0 t in
  (match intersects, out with
   | true, Some p =>
       Vec3_add p (origin ray) (Vec3_mulScalar p t (Vec3_copy p (direction ray) m))
   | _, _ => m
   end,
   intersects).

(** The parameter [t] of [intersectsRay] in terms of the memory before
    the call: [normal.dot(point - origin) / normal.dot(direction)]. *)
Definition ray_parameter (ray : Ray) (m : Mem) : float :=
  (Vec3.dot (deref m (normal (this m)))
     (Vec3.sub (deref m (point (this m))) (deref m (origin ray)))
   / Vec3.dot (deref m (normal (this m))) (deref m (direction ray)))%float.

(** A ray from (0,0,-2) along (0,0,1), and the module's temporary at
    address 7. *)
Definition sample_ray : Mem :=
  {| this := {| point := 0; normal := 1 |};
     vecs := {[ 0 := Vec3.new 1 0 0; 1 := Vec3.new 0 0 1;
                2 := Vec3.new 0 0 (-2); 3 := Vec3.new 0 0 1;
                4 := Vec3.new 9 9 9; 7 := Vec3.ZERO ]};
     writes := [] |}.

(** A plane through (1,0,0) with normal (0,0,1), the segment from
    (0,0,-1) to (0,0,3) that crosses it, and a spare vector. *)
Definition sample : Mem :=
  {| this := {| point := 0; normal := 1 |};
     vecs := {[ 0 := Vec3.new 1 0 0; 1 := Vec3.new 0 0 1;
                2 := Vec3.new 0 0 (-1); 3 := Vec3.new 0 0 3;
                4 := Vec3.new 9 9 9 ]};
     writes := [] |}.

End Plane.

(* ===================================================================== *)
(** * audio-source/component.js *)
(* ===================================================================== *)

Module AudioSource.

(** ** Collaborators *)

(** Asset identifiers, as they appear in the [assets] list. *)
Abbreviation AssetId := string (only parsing).

(** What a property read [sources[name]] can give: a decoded audio
    buffer, the resource of an asset, or, for a name that is not a key of
    the dictionary but that every object inherits from
    [Object.prototype], the function or object found there.  Both are
    objects, hence truthy. *)
Inductive Resource :=
| Sound (buffer : nat)
| Inherited (key : string).

(** Modelled from the spec: the playback channel of the audio backend
    (platform/audio/channel.js and channel3d.js are not among the
    sources).  A channel is positional or not, plays one resource and
    carries the [paused] and [suspended] flags; a channel just created
    is playing. *)
Record Channel := {
  ch_id : nat;
  ch_3d : bool;
  ch_sound : Resource;
  paused : bool;
  suspended : bool
}.

Definition Channel_pause (c : Channel) : Channel :=
  {| ch_id := ch_id c; ch_3d := ch_3d c; ch_sound := ch_sound c;
     paused := true; suspended := suspended c |}.

Definition Channel_unpause (c : Channel) : Channel :=
  {| ch_id := ch_id c; ch_3d := ch_3d c; ch_sound := ch_sound c;
     paused := false; suspended := suspended c |}.

(** The two assignments [channel.paused = p; channel.suspended = u]. *)
Definition Channel_set_flags (p u : bool) (c : Channel) : Channel :=
  {| ch_id := ch_id c; ch_3d := ch_3d c; ch_sound := ch_sound c;
     paused := p; suspended := u |}.

(** Every call the component makes on the audio backend, in order. *)
Inductive BackendCall :=
| call_playSound (ch : nat) (r : Resource)
| call_playSound3d (ch : nat) (r : Resource) (pos : Vec3)
| call_pause (ch : nat)
| call_unpause (ch : nat)
| call_stop (ch : nat)
| call_setLoop (ch : nat) (v : bool)
| call_setVolume (ch : nat) (v : float)
| call_setPitch (ch : nat) (v : float)
| call_setMaxDistance (ch : nat) (v : float)
| call_setMinDistance (ch : nat) (v : float)
| call_setRollOffFactor (ch : nat) (v : float)
| call_setDistanceModel (ch : nat) (v : string).

Definition creates_channel (c : BackendCall) : bool :=
  match c with
  | call_playSound _ _ | call_playSound3d _ _ _ => true
  | _ => false
  end.

(** Modelled from the spec: the event interface of an asset handle
    (core/event-handler.js and framework/asset/asset.js are not among the
    sources).  A subscription is identified by the event name, the
    callback and its scope; [on] appends one, [off] removes every
    subscription with the same identity.  The component only ever
    subscribes the three pairs below; [_error] is a closure, a new
    function object for every call of [loadAudioSourceAssets], and is
    identified by the batch that created it. *)
Inductive EventKind := change | remove | error.

Inductive Listener :=
| change_onAssetChanged
| remove_onAssetRemoved
| error__error (batch : nat).

Definition kind_of (l : Listener) : EventKind :=
  match l with
  | change_onAssetChanged => change
  | remove_onAssetRemoved => remove
  | error__error _ => error
  end.

#[global] Instance EventKind_eq_dec : EqDecision EventKind.
Proof. solve_decision. Defined.

#[global] Instance Listener_eq_dec : EqDecision Listener.
Proof. solve_decision. Defined.

Definition on (l : Listener) (ls : list Listener) : list Listener := ls ++ [l].

Definition off (l : Listener) (ls : list Listener) : list Listener :=
  filter (λ l', l' ≠ l) ls.

Definition listeners_for (k : EventKind) (ls : list Listener) : list Listener :=
  filter (λ l, kind_of l = k) ls.

(** Callbacks waiting for [asset.ready]: the one registered by a load
    batch (lines 337-343) and the one registered for an asset that joined
    the registry late (lines 355-357). *)
Inductive ReadyCallback :=
| ready_batch (batch : nat)
| ready_late.

(** An asset handle.  [resource] is [None] until the asset is loaded. *)
Record Asset := {
  name : string;
  resource : option Resource;
  listeners : list Listener;
  ready_callbacks : list ReadyCallback
}.

Definition Asset_set_listeners (ls : list Listener) (a : Asset) : Asset :=
  {| name := name a; resource := resource a; listeners := ls;
     ready_callbacks := ready_callbacks a |}.

Definition Asset_set_ready_callbacks (cbs : list ReadyCallback) (a : Asset) : Asset :=
  {| name := name a; resource := resource a; listeners := listeners a;
     ready_callbacks := cbs |}.

Definition Asset_set_resource (r : option Resource) (a : Asset) : Asset :=
  {| name := name a; resource := r; listeners := listeners a;
     ready_callbacks := ready_callbacks a |}.

(** ** Component state *)

(** The variables captured by the closures of one call of
    [loadAudioSourceAssets]: [count], [currentSource] and the address of
    the [sources] object. *)
Record Batch := {
  b_count : Z;
  b_sources : loc;
  b_currentSource : option string
}.

Definition Batch_set_count (n : Z) (b : Batch) : Batch :=
  {| b_count := n; b_sources := b_sources b; b_currentSource := b_currentSource b |}.

Definition Batch_set_currentSource (c : option string) (b : Batch) : Batch :=
  {| b_count := b_count b; b_sources := b_sources b; b_currentSource := c |}.

(** The settable parameters of the component data. *)
Record Params := {
  loop : bool;
  volume : float;
  pitch : float;
  activate : bool;
  is3d : bool;
  minDistance : float;
  maxDistance : float;
  rollOffFactor : float;
  distanceModel : string
}.

Record State := {
  (* this.data *)
  params : Params;
  enabled : bool;
  assets : list AssetId;
  sources : loc;
  currentSource : option string;
  channel : option Channel;
  (* this.entity, this.system *)
  entity_enabled : bool;
  entity_position : Vec3;
  initialized : bool;
  (* this.system.app.assets *)
  registry : gmap AssetId Asset;
  add_listeners : list AssetId;
  (* heap: the sources dictionaries, the closures of the load batches,
     the identity of the next channel the backend creates *)
  objects : gmap loc (gmap string Resource);
  batches : gmap nat Batch;
  next_channel : nat;
  (* observations: backend calls, registry.load requests, runs of _done *)
  backend : list BackendCall;
  loads : list AssetId;
  completions : list nat
}.

(** Assignments to one field of the state. *)
Definition set_params (v : Params) (s : State) : State :=
  {| params := v; enabled := enabled s; assets := assets s;
     sources := sources s; currentSource := currentSource s;
     channel := channel s; entity_enabled := entity_enabled s;
     entity_position := entity_position s; initialized := initialized s;
     registry := registry s; add_listeners := add_listeners s;
     objects := objects s; batches := batches s; next_channel := next_channel s;
     backend := backend s; loads := loads s; completions := completions s |}.
Definition set_assets (v : list AssetId) (s : State) : State :=
  {| params := params s; enabled := enabled s; assets := v;
     sources := sources s; currentSource := currentSource s;
     channel := channel s; entity_enabled := entity_enabled s;
     entity_position := entity_position s; initialized := initialized s;
     registry := registry s; add_listeners := add_listeners s;
     objects := objects s; batches := batches s;
     next_channel := next_channel s; backend := backend s; loads := loads s;
     completions := completions s |}.
Definition set_entity_enabled (v : bool) (s : State) : State :=
  {| params := params s; enabled := enabled s; assets := assets s;
     sources := sources s; currentSource := currentSource s;
     channel := channel s; entity_enabled := v;
     entity_position := entity_position s; initialized := initialized s;
     registry := registry s; add_listeners := add_listeners s;
     objects := objects s; batches := batches s;
     next_channel := next_channel s; backend := backend s; loads := loads s;
     completions := completions s |}.
Definition set_sources (v : loc) (s : State) : State :=
  {| params := params s; enabled := enabled s; assets := assets s;
     sources := v; currentSource := currentSource s; channel := channel s;
     entity_enabled := entity_enabled s;
     entity_position := entity_position s; initialized := initialized s;
     registry := registry s; add_listeners := add_listeners s;
     objects := objects s; batches := batches s; next_channel := next_channel s;
     backend := backend s; loads := loads s; completions := completions s |}.
Definition set_currentSource (v : option string) (s : State) : State :=
  {| params := params s; enabled := enabled s; assets := assets s;
     sources := sources s; currentSource := v; channel := channel s;
     entity_enabled := entity_enabled s;
     entity_position := entity_position s; initialized := initialized s;
     registry := registry s; add_listeners := add_listeners s;
     objects := objects s; batches := batches s; next_channel := next_channel s;
     backend := backend s; loads := loads s; completions := completions s |}.
Definition set_channel (v : option Channel) (s : State) : State :=
  {| params := params s; enabled := enabled s; assets := assets s;
     sources := sources s; currentSource := currentSource s; channel := v;
     entity_enabled := entity_enabled s;
     entity_position := entity_position s; initialized := initialized s;
     registry := registry s; add_listeners := add_listeners s;
     objects := objects s; batches := batches s; next_channel := next_channel s;
     backend := backend s; loads := loads s; completions := completions s |}.
Definition set_registry (v : gmap AssetId Asset) (s : State) : State :=
  {| params := params s; enabled := enabled s; assets := assets s;
     sources := sources s; currentSource := currentSource s;
     channel := channel s; entity_enabled := entity_enabled s;
     entity_position := entity_position s; initialized := initialized s;
     registry := v; add_listeners := add_listeners s; objects := objects s;
     batches := batches s; next_channel := next_channel s; backend := backend s;
     loads := loads s; completions := completions s |}.
Definition set_add_listeners (v : list AssetId) (s : State) : State :=
  {| params := params s; enabled := enabled s; assets := assets s;
     sources := sources s; currentSource := currentSource s;
     channel := channel s; entity_enabled := entity_enabled s;
     entity_position := entity_position s; initialized := initialized s;
     registry := registry s; add_listeners := v; objects := objects s;
     batches := batches s; next_channel := next_channel s; backend := backend s;
     loads := loads s; completions := completions s |}.
Definition set_objects (v : gmap loc (gmap string Resource)) (s : State) : State :=
  {| params := params s; enabled := enabled s; assets := assets s;
     sources := sources s; currentSource := currentSource s;
     channel := channel s; entity_enabled := entity_enabled s;
     entity_position := entity_position s; initialized := initialized s;
     registry := registry s; add_listeners := add_listeners s; objects := v;
     batches := batches s; next_channel := next_channel s; backend := backend s;
     loads := loads s; completions := completions s |}.
Definition set_batches (v : gmap nat Batch) (s : State) : State :=
  {| params := params s; enabled := enabled s; assets := assets s;
     sources := sources s; currentSource := currentSource s;
     channel := channel s; entity_enabled := entity_enabled s;
     entity_position := entity_position s; initialized := initialized s;
     registry := registry s; add_listeners := add_listeners s;
     objects := objects s; batches := v; next_channel := next_channel s;
     backend := backend s; loads := loads s; completions := completions s |}.
Definition set_next_channel (v : nat) (s : State) : State :=
  {| params := params s; enabled := enabled s; assets := assets s;
     sources := sources s; currentSource := currentSource s;
     channel := channel s; entity_enabled := entity_enabled s;
     entity_position := entity_position s; initialized := initialized s;
     registry := registry s; add_listeners := add_listeners s;
     objects := objects s; batches := batches s; next_channel := v;
     backend := backend s; loads := loads s; completions := completions s |}.
Definition set_backend (v : list BackendCall) (s : State) : State :=
  {| params := params s; enabled := enabled s; assets := assets s;
     sources := sources s; currentSource := currentSource s;
     channel := channel s; entity_enabled := entity_enabled s;
     entity_position := entity_position s; initialized := initialized s;
     registry := registry s; add_listeners := add_listeners s;
     objects := objects s; batches := batches s; next_channel := next_channel s;
     backend := v; loads := loads s; completions := completions s |}.
Definition set_loads (v : list AssetId) (s : State) : State :=
  {| params := params s; enabled := enabled s; assets := assets s;
     sources := sources s; currentSource := currentSource s;
     channel := channel s; entity_enabled := entity_enabled s;
     entity_position := entity_position s; initialized := initialized s;
     registry := registry s; add_listeners := add_listeners s;
     objects := objects s; batches := batches s; next_channel := next_channel s;
     backend := backend s; loads := v; completions := completions s |}.
Definition set_completions (v : list nat) (s : State) : State :=
  {| params := params s; enabled := enabled s; assets := assets s;
     sources := sources s; currentSource := currentSource s;
     channel := channel s; entity_enabled := entity_enabled s;
     entity_position := entity_position s; initialized := initialized s;
     registry := registry s; add_listeners := add_listeners s;
     objects := objects s; batches := batches s; next_channel := next_channel s;
     backend := backend s; loads := loads s; completions := v |}.

(** Assignments to one parameter of the component data. *)
Definition Params_set_loop (v : bool) (p : Params) : Params :=
  {| loop := v; volume := volume p; pitch := pitch p;
     activate := activate p; is3d := is3d p; minDistance := minDistance p;
     maxDistance := maxDistance p; rollOffFactor := rollOffFactor p;
     distanceModel := distanceModel p |}.
Definition Params_set_volume (v : float) (p : Params) : Params :=
  {| loop := loop p; volume := v; pitch := pitch p; activate := activate p;
     is3d := is3d p; minDistance := minDistance p;
     maxDistance := maxDistance p; rollOffFactor := rollOffFactor p;
     distanceModel := distanceModel p |}.
Definition Params_set_pitch (v : float) (p : Params) : Params :=
  {| loop := loop p; volume := volume p; pitch := v; activate := activate p;
     is3d := is3d p; minDistance := minDistance p;
     maxDistance := maxDistance p; rollOffFactor := rollOffFactor p;
     distanceModel := distanceModel p |}.
Definition Params_set_is3d (v : bool) (p : Params) : Params :=
  {| loop := loop p; volume := volume p; pitch := pitch p;
     activate := activate p; is3d := v; minDistance := minDistance p;
     maxDistance := maxDistance p; rollOffFactor := rollOffFactor p;
     distanceModel := distanceModel p |}.
Definition Params_set_minDistance (v : float) (p : Params) : Params :=
  {| loop := loop p; volume := volume p; pitch := pitch p;
     activate := activate p; is3d := is3d p; minDistance := v;
     maxDistance := maxDistance p; rollOffFactor := rollOffFactor p;
     distanceModel := distanceModel p |}.
Definition Params_set_maxDistance (v : float) (p : Params) : Params :=
  {| loop := loop p; volume := volume p; pitch := pitch p;
     activate := activate p; is3d := is3d p; minDistance := minDistance p;
     maxDistance := v; rollOffFactor := rollOffFactor p;
     distanceModel := distanceModel p |}.
Definition Params_set_rollOffFactor (v : float) (p : Params) : Params :=
  {| loop := loop p; volume := volume p; pitch := pitch p;
     activate := activate p; is3d := is3d p; minDistance := minDistance p;
     maxDistance := maxDistance p; rollOffFactor := v;
     distanceModel := distanceModel p |}.
Definition Params_set_distanceModel (v : string) (p : Params) : Params :=
  {| loop := loop p; volume := volume p; pitch := pitch p;
     activate := activate p; is3d := is3d p; minDistance := minDistance p;
     maxDistance := maxDistance p; rollOffFactor := rollOffFactor p;
     distanceModel := v |}.

(** The dictionary [this.data.sources] refers to, and the dictionary at
    an address in general. *)
Definition dict (l : loc) (s : State) : gmap string Resource :=
  default ∅ (objects s !! l).

Definition SourceMap (s : State) : gmap string Resource :=
  dict (sources s) s.

(** The names of the properties of [Object.prototype], which the
    dictionaries, created as [{}] (line 303), inherit. *)
Definition Object_prototype : list string :=
  ["constructor"; "__proto__"; "hasOwnProperty"; "isPrototypeOf";
   "propertyIsEnumerable"; "toLocaleString"; "toString"; "valueOf";
   "__defineGetter__"; "__defineSetter__"; "__lookupGetter__"; "__lookupSetter__"].

(** The property read [obj[key]] on a dictionary with the own
    properties [m]: the own property if there is one, else the
    inherited one, else [undefined]. *)
Definition get_property (m : gmap string Resource) (key : string) : option Resource :=
  match m !! key with
  | Some r => Some r
  | None => if bool_decide (key ∈ Object_prototype) then Some (Inherited key) else None
  end.

(** [obj[key] = r] and [delete obj[key]] on the own properties of the
    dictionary at [l].  (For the one key "__proto__" an assignment
    replaces the prototype of the object instead; the names of assets
    are taken to differ from it.) *)
Definition dict_set (l : loc) (key : string) (r : Resource) (s : State) : State :=
  set_objects (<[l := <[key := r]> (dict l s)]> (objects s)) s.

Definition dict_delete (l : loc) (key : string) (s : State) : State :=
  set_objects (<[l := delete key (dict l s)]> (objects s)) s.

Definition log_backend (c : BackendCall) (s : State) : State :=
  set_backend (backend s ++ [c]) s.

(** [registry.load(asset)]: the request is recorded; the registry answers
    later with a [load] or an [error] event. *)
Definition registry_load (id : AssetId) (s : State) : State :=
  set_loads (loads s ++ [id]) s.

(** Modelled from the spec: [manager.playSound] and [manager.playSound3d]
    (platform/audio/manager.js is not among the sources) create a channel
    in the given mode and start it. *)
Definition playSound (r : Resource) (s : State) : Channel * State :=
  ({| ch_id := next_channel s; ch_3d := false; ch_sound := r;
      paused := false; suspended := false |},
   set_next_channel (S (next_channel s))
     (log_backend (call_playSound (next_channel s) r) s)).

Definition playSound3d (r : Resource) (pos : Vec3) (s : State) : Channel * State :=
  ({| ch_id := next_channel s; ch_3d := true; ch_sound := r;
      paused := false; suspended := false |},
   set_next_channel (S (next_channel s))
     (log_backend (call_playSound3d (next_channel s) r pos) s)).

(** ** JavaScript values *)

(** Truthiness of a value that is [null] or a string. *)
Definition truthy (v : option string) : bool :=
  match v with
  | None => false
  | Some n => negb (String.eqb n "")
  end.

(** [a || b] where [b] is a string. *)
Definition js_or (a : option string) (b : string) : option string :=
  if truthy a then a else Some b.

(** The property key [sources[name]] reads: [null] is converted to the
    string "null". *)
Definition property_key (name : option string) : string :=
  default "null" name.

(** ** Channel controller (lines 66-119) *)

Definition stop (s : State) : State :=
  match channel s with
  | Some c => set_channel None (log_backend (call_stop (ch_id c)) s)
  | None => s
  end.

Definition play (name : option string) (s : State) : State :=
  if negb (enabled s) || negb (entity_enabled s) then s
  else
    let s := match channel s with Some _ => stop s | None => s end in
    match get_property (SourceMap s) (property_key name) with
    | Some r =>
        if negb (is3d (params s)) then
          let '(c, s) := playSound r s in
          set_channel (Some c) (set_currentSource name s)
        else
          let pos := entity_position s in
          let '(c, s) := playSound3d r pos s in
          set_channel (Some c) (set_currentSource name s)
    | None => s
    end.

Definition pause (s : State) : State :=
  match channel s with
  | Some c => set_channel (Some (Channel_pause c)) (log_backend (call_pause (ch_id c)) s)
  | None => s
  end.

Definition unpause (s : State) : State :=
  match channel s with
  | Some c =>
      if paused c
      then set_channel (Some (Channel_unpause c)) (log_backend (call_unpause (ch_id c)) s)
      else s
  | None => s
  end.

(** ** Asset events (lines 161-190) *)

(** The handlers receive the asset handle; here they receive its
    identifier and read the handle from the store. *)
Definition onAssetChanged (asset : AssetId) (attribute : string) (newValue : Resource)
    (s : State) : State :=
  match registry s !! asset with
  | Some a =>
      if String.eqb attribute "resource" then
        let s := dict_set (sources s) (name a) newValue s in
        if bool_decide (currentSource s = Some (name a)) then
          match channel s with
          | Some c =>
              if paused c then pause (play (Some (name a)) s)
              else play (Some (name a)) s
          | None => s
          end
        else s
      else s
  | None => s
  end.

Definition onAssetRemoved (asset : AssetId) (s : State) : State :=
  match registry s !! asset with
  | Some a =>
      let s := set_registry
                 (<[asset := Asset_set_listeners (off remove_onAssetRemoved (listeners a)) a]>
                    (registry s)) s in
      match get_property (SourceMap s) (name a) with
      | Some _ =>
          let s := dict_delete (sources s) (name a) s in
          if bool_decide (currentSource s = Some (name a))
          then set_currentSource None (stop s)
          else s
      | None => s
      end
  | None => s
  end.

(** ** Parameter handlers (lines 192-266)

    The first argument of the source, the property name, is not used by
    any handler and is left out.  [oldValue !== newValue] on numbers is
    the negation of IEEE equality. *)

Definition onSetLoop (oldValue newValue : bool) (s : State) : State :=
  if negb (Bool.eqb oldValue newValue) then
    match channel s with
    | Some c => log_backend (call_setLoop (ch_id c) newValue) s
    | None => s
    end
  else s.

Definition onSetVolume (oldValue newValue : float) (s : State) : State :=
  if negb (PrimFloat.eqb oldValue newValue) then
    match channel s with
    | Some c => log_backend (call_setVolume (ch_id c) newValue) s
    | None => s
    end
  else s.

Definition onSetPitch (oldValue newValue : float) (s : State) : State :=
  if negb (PrimFloat.eqb oldValue newValue) then
    match channel s with
    | Some c => log_backend (call_setPitch (ch_id c) newValue) s
    | None => s
    end
  else s.

(** [this.channel instanceof Channel3d]. *)
Definition channel3d (s : State) : option Channel :=
  match channel s with
  | Some c => if ch_3d c then Some c else None
  | None => None
  end.

Definition onSetMaxDistance (oldValue newValue : float) (s : State) : State :=
  if negb (PrimFloat.eqb oldValue newValue) then
    match channel3d s with
    | Some c => log_backend (call_setMaxDistance (ch_id c) newValue) s
    | None => s
    end
  else s.

Definition onSetMinDistance (oldValue newValue : float) (s : State) : State :=
  if negb (PrimFloat.eqb oldValue newValue) then
    match channel3d s with
    | Some c => log_backend (call_setMinDistance (ch_id c) newValue) s
    | None => s
    end
  else s.

Definition onSetRollOffFactor (oldValue newValue : float) (s : State) : State :=
  if negb (PrimFloat.eqb oldValue newValue) then
    match channel3d s with
    | Some c => log_backend (call_setRollOffFactor (ch_id c) newValue) s
    | None => s
    end
  else s.

Definition onSetDistanceModel (oldValue newValue : string) (s : State) : State :=
  if negb (String.eqb oldValue newValue) then
    match channel3d s with
    | Some c => log_backend (call_setDistanceModel (ch_id c) newValue) s
    | None => s
    end
  else s.

Definition onSet3d (oldValue newValue : bool) (s : State) : State :=
  if negb (Bool.eqb oldValue newValue) then
    if initialized s && truthy (currentSource s) then
      let '(paused_, suspended_) :=
        match channel s with
        | Some c => (paused c, suspended c)
        | None => (false, false)
        end in
      let s := play (currentSource s) s in
      match channel s with
      | Some c => set_channel (Some (Channel_set_flags paused_ suspended_ c)) s
      | None => s
      end
    else s
  else s.

(** Modelled from the spec: the property accessors of a component
    (framework/components/component.js is not among the sources) store
    the new value in the component data and then call the handler with
    the old and the new value. *)
Definition setLoop (v : bool) (s : State) : State :=
  onSetLoop (loop (params s)) v (set_params (Params_set_loop v (params s)) s).

Definition setVolume (v : float) (s : State) : State :=
  onSetVolume (volume (params s)) v (set_params (Params_set_volume v (params s)) s).

Definition setPitch (v : float) (s : State) : State :=
  onSetPitch (pitch (params s)) v (set_params (Params_set_pitch v (params s)) s).

Definition setMinDistance (v : float) (s : State) : State :=
  onSetMinDistance (minDistance (params s)) v
    (set_params (Params_set_minDistance v (params s)) s).

Definition setMaxDistance (v : float) (s : State) : State :=
  onSetMaxDistance (maxDistance (params s)) v
    (set_params (Params_set_maxDistance v (params s)) s).

Definition setRollOffFactor (v : float) (s : State) : State :=
  onSetRollOffFactor (rollOffFactor (params s)) v
    (set_params (Params_set_rollOffFactor v (params s)) s).

Definition setDistanceModel (v : string) (s : State) : State :=
  onSetDistanceModel (distanceModel (params s)) v
    (set_params (Params_set_distanceModel v (params s)) s).

Definition setPositional (v : bool) (s : State) : State :=
  onSet3d (is3d (params s)) v (set_params (Params_set_is3d v (params s)) s).

(** ** Enable and disable (lines 268-296) *)

(** The loop of lines 274-282 for one entry of [this.data.assets]. *)
Definition load_if_unloaded (s : State) (id : AssetId) : State :=
  match registry s !! id with
  | Some a =>
      match resource a with
      | None => registry_load id s
      | Some _ => s
      end
  | None => s
  end.

Definition onEnable (s : State) : State :=
  let s := foldl load_if_unloaded s (assets s) in
  if initialized s then
    if activate (params s) && negb (bool_decide (is_Some (channel s)))
    then play (currentSource s) s
    else unpause s
  else s.

Definition onDisable (s : State) : State := pause s.

(** ** Resource resolver (lines 298-364) *)

Definition update_batch (b : nat) (f : Batch → Batch) (s : State) : State :=
  match batches s !! b with
  | Some B => set_batches (<[b := f B]> (batches s)) s
  | None => s
  end.

Definition count (b : nat) (s : State) : Z :=
  default 0%Z (b_count <$> batches s !! b).

(** [count--]. *)
Definition decrement (b : nat) (s : State) : State :=
  update_batch b (λ B, Batch_set_count (b_count B - 1) B) s.

(** The closure [_error] of batch [b] (lines 309-311). *)
Definition _error (b : nat) (s : State) : State := decrement b s.

(** The closure [_done] of batch [b] (lines 314-321).  The assignment to
    [this.data.sources] stores the address of the batch's dictionary. *)
Definition _done (b : nat) (s : State) : State :=
  match batches s !! b with
  | Some B =>
      let s := set_sources (b_sources B) s in
      let s := set_currentSource (b_currentSource B) s in
      let s := set_completions (completions s ++ [b]) s in
      if enabled s && activate (params s) && truthy (b_currentSource B)
      then onEnable s
      else s
  | None => s
  end.

(** The callback given to [asset.ready] by batch [b] (lines 337-343),
    called with an asset named [nm] whose resource is [r]. *)
Definition ready_callback (b : nat) (nm : string) (r : Resource) (s : State) : State :=
  match batches s !! b with
  | Some B =>
      let s := dict_set (b_sources B) nm r s in
      let s := decrement b s in
      if (count b s =? 0)%Z then _done b s else s
  | None => s
  end.

(** The callback given to [asset.ready] for a late asset (lines 355-357). *)
Definition late_callback (nm : string) (r : Resource) (s : State) : State :=
  dict_set (sources s) nm r s.

Definition call_ready (cb : ReadyCallback) (nm : string) (r : Resource) (s : State) : State :=
  match cb with
  | ready_batch b => ready_callback b nm r s
  | ready_late => late_callback nm r s
  end.

(** Modelled from the spec: [asset.ready(callback)] (asset.js is not
    among the sources) calls back at once when the resource is there and
    otherwise once, when the asset has loaded. *)
Definition Asset_ready (id : AssetId) (cb : ReadyCallback) (s : State) : State :=
  match registry s !! id with
  | Some a =>
      match resource a with
      | Some r => call_ready cb (name a) r s
      | None =>
          set_registry
            (<[id := Asset_set_ready_callbacks (ready_callbacks a ++ [cb]) a]> (registry s)) s
      end
  | None => s
  end.

(** The three off/on pairs of lines 329-336. *)
Definition subscribe (b : nat) (ls : list Listener) : list Listener :=
  let ls := on change_onAssetChanged (off change_onAssetChanged ls) in
  let ls := on remove_onAssetRemoved (off remove_onAssetRemoved ls) in
  on (error__error b) (off (error__error b) ls).

(** The body of [assets.forEach] (lines 323-363) for the identifier [id]
    whose handle, looked up before the loop, was present or not.  A
    handle that was present is read from the store again, where it still
    is: nothing in the loop removes a handle. *)
Definition forEach_body (b : nat) (s : State) (entry : AssetId * bool) : State :=
  let '(id, present) := entry in
  if present then
    match registry s !! id with
    | Some a =>
        let s := update_batch b
                   (λ B, Batch_set_currentSource (js_or (b_currentSource B) (name a)) B) s in
        let s := set_registry
                   (<[id := Asset_set_listeners (subscribe b (listeners a)) a]> (registry s)) s in
        let s := Asset_ready id (ready_batch b) s in
        match resource a with
        | None => if enabled s && entity_enabled s then registry_load id s else s
        | Some _ => s
        end
    | None => s
    end
  else
    let s := decrement b s in
    let s := if (count b s =? 0)%Z then _done b s else s in
    set_add_listeners (add_listeners s ++ [id]) s.

(** The closure of a new call and the dictionary [const sources = {}] get
    an identifier and an address that are not in use. *)
Definition new_batch (s : State) : nat := fresh (dom (batches s)).

Definition new_dict (s : State) : loc := fresh (dom (objects s) ∪ {[ sources s ]}).

Definition loadAudioSourceAssets (ids : list AssetId) (s : State) : State :=
  let assets := map (λ id, (id, bool_decide (is_Some (registry s !! id)))) ids in
  let b := new_batch s in
  let sources := new_dict s in
  let s := set_objects (<[sources := ∅]> (objects s)) s in
  let s := set_batches
             (<[b := {| b_count := Z.of_nat (length assets); b_sources := sources;
                        b_currentSource := None |}]> (batches s)) s in
  foldl (forEach_body b) s assets.

(** ** The list of assets (lines 121-159) *)

(** The loop of lines 126-139 for one entry of the old list; the empty
    identifier is falsy. *)
Definition unsubscribe_old (s : State) (id : AssetId) : State :=
  if String.eqb id "" then s
  else
    match registry s !! id with
    | Some a =>
        let ls := off remove_onAssetRemoved (off change_onAssetChanged (listeners a)) in
        let s := set_registry (<[id := Asset_set_listeners ls a]> (registry s)) s in
        if bool_decide (currentSource s = Some (name a)) then stop s else s
    | None => s
    end.

(** [onSetAssets(name, oldValue, newValue)] for lists of identifiers;
    [inTools] is [this.system._inTools].  The batch is only started when
    there is something new to load. *)
Definition onSetAssets (inTools : bool) (oldValue newValue : list AssetId) (s : State)
  : State :=
  let s := foldl unsubscribe_old s oldValue in
  let newAssets := filter (λ id, id ∉ oldValue) newValue in
  if negb inTools && negb (bool_decide (newAssets = []))
  then loadAudioSourceAssets newAssets s
  else s.

(** The accessor of [assets], as for the parameters above. *)
Definition setAssets (inTools : bool) (v : list AssetId) (s : State) : State :=
  onSetAssets inTools (assets s) v (set_assets v s).

(** ** Events delivered by the asset registry *)

(** Modelled from the spec: the asset registry (framework/asset/
    asset-registry.js is not among the sources) fires [load], [error],
    [change] and [remove] on a handle it holds and ['add:' + id] when a
    handle joins it.  A handler is called with the identifier of the
    asset that fired and finds the handle in the store; a removed handle
    leaves the store after its [remove] listeners have run. *)
Inductive Event :=
| asset_load (id : AssetId) (r : Resource)
| asset_error (id : AssetId)
| asset_change (id : AssetId) (attribute : string) (newValue : Resource)
| asset_remove (id : AssetId)
| asset_add (id : AssetId) (a : Asset).

(** The asset finished loading: its resource is set and the callbacks
    waiting for [ready] run once, in the order they were registered. *)
Definition fire_load (id : AssetId) (r : Resource) (s : State) : State :=
  match registry s !! id with
  | Some a =>
      let a' := Asset_set_ready_callbacks [] (Asset_set_resource (Some r) a) in
      let s := set_registry (<[id := a']> (registry s)) s in
      foldl (λ s cb, call_ready cb (name a) r s) s (ready_callbacks a)
  | None => s
  end.

(** The listeners of one kind, as subscribed when the event fires, are
    called in subscription order. *)
Definition call_listener (id : AssetId) (e : Event) (s : State) (l : Listener) : State :=
  match l, e with
  | change_onAssetChanged, asset_change _ attribute newValue =>
      onAssetChanged id attribute newValue s
  | remove_onAssetRemoved, asset_remove _ => onAssetRemoved id s
  | error__error b, asset_error _ => _error b s
  | _, _ => s
  end.

Definition fire (id : AssetId) (k : EventKind) (e : Event) (s : State) : State :=
  match registry s !! id with
  | Some a => foldl (call_listener id e) s (listeners_for k (listeners a))
  | None => s
  end.

(** The listener on ['add:' + id] (lines 354-361). *)
Definition on_add (id : AssetId) (s : State) : State :=
  let s := Asset_ready id ready_late s in
  match registry s !! id with
  | Some a =>
      match resource a with
      | None => registry_load id s
      | Some _ => s
      end
  | None => s
  end.

Definition deliver (s : State) (e : Event) : State :=
  match e with
  | asset_load id r => fire_load id r s
  | asset_error id => fire id error e s
  | asset_change id _ _ => fire id change e s
  | asset_remove id =>
      let s := fire id remove e s in
      set_registry (delete id (registry s)) s
  | asset_add id a =>
      let s := set_registry (<[id := a]> (registry s)) s in
      foldl (λ s _, on_add id s) s (filter (λ id', id' = id) (add_listeners s))
  end.

Definition run (s : State) (es : list Event) : State := foldl deliver s es.

(** ** Sample states *)

Definition sample_params : Params :=
  {| loop := false; volume := 1; pitch := 1; activate := true; is3d := false;
     minDistance := 1; maxDistance := 10000; rollOffFactor := 1;
     distanceModel := "inverse" |}.

(** An asset that is registered and not loaded yet. *)
Definition unloaded (nm : string) : Asset :=
  {| name := nm; resource := None; listeners := []; ready_callbacks := [] |}.

(** An enabled component of an initialized system before any asset has
    resolved: empty source map, no current source, no channel. *)
Definition component (reg : gmap AssetId Asset) : State :=
  {| params := sample_params; enabled := true; assets := []; sources := 0;
     currentSource := None; channel := None;
     entity_enabled := true; entity_position := Vec3.ZERO; initialized := true;
     registry := reg; add_listeners := [];
     objects := {[ 0 := ∅ ]}; batches := ∅; next_channel := 0;
     backend := []; loads := []; completions := [] |}.

Definition registry_abc : gmap AssetId Asset :=
  {[ "a" := unloaded "a"; "b" := unloaded "b"; "c" := unloaded "c" ]}.

(** The component after the batch ["b"] has resolved: "b" is in the
    source map, is the current source and is playing on channel 0. *)
Definition playing_b : State :=
  run (loadAudioSourceAssets ["b"] (component registry_abc)) [asset_load "b" (Sound 7)].

(** The same component paused, after a second batch ["a"; "c"] in which
    "a" failed and "c" loaded: the current source is "a", the source map
    holds "c" only, and the paused channel still plays the buffer of "b". *)
Definition stale_current : State :=
  pause (run (loadAudioSourceAssets ["a"; "c"] (pause playing_b))
           [asset_error "a"; asset_load "c" (Sound 8)]).

(** The component that plays "b" after its entity was disabled: the
    channel is paused and still live, the component itself is enabled. *)
Definition entity_disabled : State :=
  set_entity_enabled false (onDisable playing_b).

(** The component that plays "b", with [activate] switched off. *)
Definition playing_b_manual : State :=
  set_params
    {| loop := false; volume := 1; pitch := 1; activate := false; is3d := false;
       minDistance := 1; maxDistance := 10000; rollOffFactor := 1;
       distanceModel := "inverse" |}
    playing_b.

(** The component after [assets = ["b"]], the load of "b" (which
    starts to play it), [assets = ["b"]] once more (which stops it) and
    [play("b")]. *)
Definition kept_asset : State :=
  play (Some "b")
    (setAssets false ["b"]
       (deliver (setAssets false ["b"] (component registry_abc))
          (asset_load "b" (Sound 7)))).

(** A component playing on a positional channel. *)
Definition playing3d : State :=
  set_channel (Some {| ch_id := 0; ch_3d := true; ch_sound := Sound 7;
                       paused := false; suspended := false |})
    (set_next_channel 1 (component registry_abc)).

(** ** Notions used in the statements *)

(** The backend calls of [stop]. *)
Definition stop_calls (s : State) : list BackendCall :=
  match channel s with
  | Some c => [call_stop (ch_id c)]
  | None => []
  end.

(** The backend call and the channel of a successful [play]. *)
Definition play_call (r : Resource) (s : State) : BackendCall :=
  if is3d (params s)
  then call_playSound3d (next_channel s) r (entity_position s)
  else call_playSound (next_channel s) r.

Definition new_channel (r : Resource) (s : State) : Channel :=
  {| ch_id := next_channel s; ch_3d := is3d (params s); ch_sound := r;
     paused := false; suspended := false |}.

(** What the removal of the asset named [nm] does to the source map, the
    current source and the channel between [s] and [s']. *)
Definition removal_effect (nm : string) (s s' : State) : Prop :=
  SourceMap s' = delete nm (SourceMap s)
  ∧ (currentSource s = Some nm →
     channel s' = None ∧ currentSource s' = None
     ∧ backend s' = backend s ++ stop_calls s)
  ∧ (currentSource s ≠ Some nm →
     currentSource s' = currentSource s ∧ channel s' = channel s
     ∧ backend s' = backend s).

(** The names of the handles that are present, in input order. *)
Definition present_names (reg : gmap AssetId Asset) (ids : list AssetId) : list string :=
  omap (λ id, name <$> reg !! id) ids.

(** The first entry of a list of names as [a || b] selects it: the first
    non-empty name, the empty name when all are empty, nothing when the
    list is empty. *)
Definition first_entry (names : list string) : option string :=
  match names with
  | [] => None
  | _ => Some (default "" (head (filter (λ n, n ≠ "") names)))
  end.

(** The shape of every state the channel controller produces from [s]:
    only the channel, the current source, the backend log, the channel
    counter and the load requests differ. *)
Definition controller_update (c : option Channel) (cs : option string) (nc : nat)
    (bk : list BackendCall) (ls : list AssetId) (s : State) : State :=
  set_channel c (set_currentSource cs (set_next_channel nc (set_backend bk (set_loads ls s)))).

(** The variable [currentSource] of every closure is the same in [s] and
    in [s']. *)
Definition closure_stable (s s' : State) : Prop :=
  ∀ b, b_currentSource <$> batches s' !! b = b_currentSource <$> batches s !! b.

(** The state of the loop of [loadAudioSourceAssets] for batch [b] over
    [n] identifiers after [k] of them: the closure holds the first entry
    [acc] of the names seen so far, at most [k] identifiers have been
    counted off, the handles keep their names, and [_done] has run only
    if the loop is over, in which case it committed [acc]. *)
Definition loop_invariant (b n : nat) (names0 : gmap AssetId string)
    (cp0 : list nat) (cs0 : option string)
    (acc : option string) (k : nat) (s : State) : Prop :=
  (∃ B, batches s !! b = Some B ∧ b_currentSource B = acc
        ∧ (Z.of_nat n - Z.of_nat k ≤ b_count B)%Z)
  ∧ name <$> registry s = names0
  ∧ (completions s = cp0 ∧ currentSource s = cs0
     ∨ k = n ∧ completions s = cp0 ++ [b] ∧ currentSource s = acc).

(** The closure's [currentSource] after one more identifier. *)
Definition next_entry (names0 : gmap AssetId string) (acc : option string) (id : AssetId)
  : option string :=
  match names0 !! id with
  | Some nm => js_or acc nm
  | None => acc
  end.

(** The handle of [id] is registered and has no resource yet: the test
    [!asset.resource] of [onEnable] and of the loop of
    [loadAudioSourceAssets]. *)
Definition needs_load (reg : gmap AssetId Asset) (id : AssetId) : bool :=
  match reg !! id with
  | Some a => match resource a with None => true | Some _ => false end
  | None => false
  end.

(** What the ready callback of a loaded handle stores in the batch's
    dictionary, and the dictionary after a list of identifiers. *)
Definition collect (reg : gmap AssetId Asset) (m : gmap string Resource) (id : AssetId)
  : gmap string Resource :=
  match reg !! id with
  | Some a => match resource a with Some r => <[name a := r]> m | None => m end
  | None => m
  end.


(** The identifiers that have no handle, in input order. *)
Definition absent (reg : gmap AssetId Asset) (ids : list AssetId) : list AssetId :=
  filter (λ id, reg !! id = None) ids.

(** Two stores hold the same handles with the same names and resources. *)
Definition same_assets (reg reg' : gmap AssetId Asset) : Prop :=
  ∀ id, (λ a, (name a, resource a)) <$> reg' !! id
        = (λ a, (name a, resource a)) <$> reg !! id.







(** The channel a backend call addresses. *)
Definition call_channel (c : BackendCall) : nat :=
  match c with
  | call_playSound n _ | call_playSound3d n _ _ | call_pause n | call_unpause n
  | call_stop n | call_setLoop n _ | call_setVolume n _ | call_setPitch n _
  | call_setMaxDistance n _ | call_setMinDistance n _ | call_setRollOffFactor n _
  | call_setDistanceModel n _ => n
  end.

(** The channels that are live after a log of backend calls: a play call
    creates one, a stop call releases one, and every other call must
    address a live channel.  [None] when a call addresses a channel that
    is not live. *)
Definition backend_step (live : option (list nat)) (c : BackendCall) : option (list nat) :=
  match live with
  | None => None
  | Some l =>
      if creates_channel c then Some (l ++ [call_channel c])
      else if bool_decide (call_channel c ∈ l) then
        match c with
        | call_stop n => Some (filter (λ m, m ≠ n) l)
        | _ => Some l
        end
      else None
  end.

Definition live_channels (bk : list BackendCall) : option (list nat) :=
  foldl backend_step (Some []) bk.

(** The component's channel is the one live channel of the backend, and
    no call was made on a channel that was not live. *)
Definition channel_discipline (s : State) : Prop :=
  live_channels (backend s)
  = Some (match channel s with Some c => [ch_id c] | None => [] end).

(** What can happen to a component: a call of one of its methods, an
    assignment to one of its properties, or an event of the registry. *)
Inductive Operation :=
| op_play (name : option string)
| op_pause
| op_unpause
| op_stop
| op_setLoop (v : bool)
| op_setVolume (v : float)
| op_setPitch (v : float)
| op_setMinDistance (v : float)
| op_setMaxDistance (v : float)
| op_setRollOffFactor (v : float)
| op_setDistanceModel (v : string)
| op_setPositional (v : bool)
| op_setAssets (inTools : bool) (v : list AssetId)
| op_onEnable
| op_onDisable
| op_event (e : Event).

Definition perform (s : State) (o : Operation) : State :=
  match o with
  | op_play name => play name s
  | op_pause => pause s
  | op_unpause => unpause s
  | op_stop => stop s
  | op_setLoop v => setLoop v s
  | op_setVolume v => setVolume v s
  | op_setPitch v => setPitch v s
  | op_setMinDistance v => setMinDistance v s
  | op_setMaxDistance v => setMaxDistance v s
  | op_setRollOffFactor v => setRollOffFactor v s
  | op_setDistanceModel v => setDistanceModel v s
  | op_setPositional v => setPositional v s
  | op_setAssets inTools v => setAssets inTools v s
  | op_onEnable => onEnable s
  | op_onDisable => onDisable s
  | op_event e => deliver s e
  end.

(** No batch has run [_done] twice, and a batch that has run it has
    counted all of its assets off. *)
Definition finalized_once (s : State) : Prop :=
  NoDup (completions s)
  ∧ ∀ b, b ∈ completions s → ∃ B, batches s !! b = Some B ∧ (b_count B ≤ 0)%Z.

(** [s'] has the closures and the completions of [s]. *)
Definition same_batches (s s' : State) : Prop :=
  completions s' = completions s ∧ batches s' = batches s.

End AudioSource.

(* ===================================================================== *)
(** * Properties of plane.js *)
(* ===================================================================== *)

Section PlaneProperties.

Import Plane.

Lemma intersectsLine_unfold (start end_ : loc) (out : option loc) (m : Mem) :
  ∃ t : float,
    intersectsLine start end_ out m =
      (match PrimFloat.leb 0 t && PrimFloat.leb t 1, out with
       | true, Some p => Vec3_lerp p start end_ t m
       | _, _ => m
       end,
       PrimFloat.leb 0 t && PrimFloat.leb t 1).
Proof. eexists. reflexivity. Qed.

(** C10, as the source has it.  A call of [intersectsLine] writes exactly
    one vector, the out-parameter, when it returns true and the parameter
    was supplied, and writes nothing otherwise; when it returns false the
    memory is left as it was; the plane's [point] and [normal] fields keep
    their references; every vector other than the out-parameter keeps its
    value, so the plane's point and normal vectors are unmodified in every
    call whose out-parameter is not that same vector object. *)
Theorem C10_intersectsLine_frame (start end_ : loc) (out : option loc) (m : Mem) :
  let m' := (intersectsLine start end_ out m).1 in
  let r := (intersectsLine start end_ out m).2 in
  writes m' = writes m ++ (if r then option_list out else [])
  ∧ (r = false → m' = m)
  ∧ this m' = this m
  ∧ (∀ l, out ≠ Some l → vecs m' !! l = vecs m !! l)
  ∧ (out ≠ Some (point (this m)) →
     deref m' (point (this m')) = deref m (point (this m)))
  ∧ (out ≠ Some (normal (this m)) →
     deref m' (normal (this m')) = deref m (normal (this m))).
Proof.
  destruct (intersectsLine_unfold start end_ out m) as [t ->].
  cbn zeta. destruct (PrimFloat.leb 0 t && PrimFloat.leb t 1) eqn:Hr.
  - destruct out as [p|]; cbn.
    + assert (Hframe : ∀ l, Some p ≠ Some l →
               (<[p := Vec3.lerp (deref m start) (deref m end_) t]> (vecs m)) !! l
               = vecs m !! l).
      { intros l Hl. apply lookup_insert_ne. congruence. }
      repeat split; try done.
      * intros Hp. unfold deref. cbn. by rewrite Hframe.
      * intros Hn. unfold deref. cbn. by rewrite Hframe.
    + rewrite app_nil_r. repeat split; done.
  - destruct out as [p|]; cbn; rewrite app_nil_r; repeat split; done.
Qed.

(** An instance of C10 on the sample plane with a separate out-parameter:
    the call returns true, writes the vector at address 4 only and leaves
    the plane's point where it was. *)
Lemma C10_frame_sample :
  (intersectsLine 2 3 (Some 4) sample).2 = true
  ∧ writes (intersectsLine 2 3 (Some 4) sample).1 = [4]
  ∧ deref (intersectsLine 2 3 (Some 4) sample).1
      (point (this (intersectsLine 2 3 (Some 4) sample).1))
    = deref sample (point (this sample)).
Proof.
  pose proof (C10_intersectsLine_frame 2 3 (Some 4) sample) as H.
  cbn zeta in H. destruct H as (Hw & _ & _ & _ & Hp & _).
  split; [ vm_compute; reflexivity | ].
  split; [ rewrite Hw; vm_compute; reflexivity | ].
  apply Hp. discriminate.
Defined.

(** C10 as stated fails under aliasing.  When the caller passes the
    plane's own point vector as the out-parameter and the segment crosses
    the plane, the call overwrites that vector: the plane's point was
    (1,0,0) before the call and is (0,0,0) after it. *)
Lemma C10_aliased_out_overwrites_point :
  (intersectsLine 2 3 (Some 0) sample).2 = true
  ∧ point (this sample) = 0
  ∧ deref sample (point (this sample)) = Vec3.new 1 0 0
  ∧ deref (intersectsLine 2 3 (Some 0) sample).1
      (point (this (intersectsLine 2 3 (Some 0) sample).1)) = Vec3.new 0 0 0
  ∧ deref (intersectsLine 2 3 (Some 0) sample).1
      (point (this (intersectsLine 2 3 (Some 0) sample).1))
    ≠ deref sample (point (this sample)).
Proof.
  repeat apply conj; try (vm_compute; reflexivity).
  intros H. apply (f_equal (λ v, PrimFloat.eqb (Vec3.x v) 0)) in H.
  vm_compute in H. discriminate.
Qed.

End PlaneProperties.

(* ===================================================================== *)
(** * Properties of the audio-source component *)
(* ===================================================================== *)

Section AudioSourceProperties.

Import AudioSource.

Ltac unfold_setters :=
  cbv beta iota zeta delta
    [controller_update set_params set_sources set_currentSource set_channel set_registry
     set_add_listeners set_objects set_batches set_next_channel set_backend
     set_loads set_completions log_backend registry_load Channel_set_flags
     Channel_pause Channel_unpause
     params enabled assets sources currentSource channel entity_enabled
     entity_position initialized registry add_listeners objects batches
     next_channel backend loads completions
     ch_id ch_3d ch_sound paused suspended].

(** ** Channel controller *)

(** *** stop and play *)

Lemma stop_eq s :
  stop s = set_channel None (set_backend (backend s ++ stop_calls s) s).
Proof.
  unfold stop, stop_calls. destruct s as [? ? ? ? ? [c|] ? ? ? ? ? ? ? ? ? ? ?]; cbn.
  - reflexivity.
  - by rewrite app_nil_r.
Qed.

Lemma stop_no_channel s : channel s = None → stop s = s.
Proof. unfold stop. by intros ->. Qed.

Lemma SourceMap_stop s : SourceMap (stop s) = SourceMap s.
Proof. by rewrite stop_eq. Qed.

Lemma play_gate_closed name s :
  enabled s && entity_enabled s = false → play name s = s.
Proof. unfold play. by destruct (enabled s), (entity_enabled s). Qed.

(** A property read finds an own property first, and nothing exactly
    when the name is neither a key nor inherited. *)
Lemma get_property_own (m : gmap string Resource) key r :
  m !! key = Some r → get_property m key = Some r.
Proof. unfold get_property. by intros ->. Qed.

Lemma get_property_None (m : gmap string Resource) key :
  get_property m key = None ↔ m !! key = None ∧ key ∉ Object_prototype.
Proof.
  unfold get_property. destruct (m !! key); [by split; [|intros []]|].
  case_bool_decide; split; try done. by intros [].
Qed.

Lemma play_missing name s :
  enabled s = true → entity_enabled s = true →
  get_property (SourceMap s) (property_key name) = None →
  play name s = stop s.
Proof.
  intros He Hee Hn. unfold play. rewrite He, Hee. simpl.
  destruct (channel s) eqn:Hc.
  - by rewrite SourceMap_stop, Hn.
  - by rewrite Hn, stop_no_channel.
Qed.

(** [play] with whatever the property read gives. *)
Lemma play_read name r s :
  enabled s = true → entity_enabled s = true →
  get_property (SourceMap s) (property_key name) = Some r →
  play name s =
    set_channel (Some (new_channel r s))
      (set_currentSource name
         (set_next_channel (S (next_channel s))
            (log_backend (play_call r s) (stop s)))).
Proof.
  intros He Hee Hn. unfold play. rewrite He, Hee. simpl.
  assert (Hs : match channel s with Some _ => stop s | None => s end = stop s).
  { destruct (channel s) eqn:Hc; [done | by rewrite stop_no_channel]. }
  rewrite Hs, SourceMap_stop, Hn.
  unfold new_channel, play_call, stop.
  destruct (channel s); destruct (is3d (params s)) eqn:H3; cbn; rewrite ?H3; reflexivity.
Qed.

Lemma play_found name r s :
  enabled s = true → entity_enabled s = true →
  SourceMap s !! property_key name = Some r →
  play name s =
    set_channel (Some (new_channel r s))
      (set_currentSource name
         (set_next_channel (S (next_channel s))
            (log_backend (play_call r s) (stop s)))).
Proof.
  intros He Hee Hn. apply play_read; [done..|]. by apply get_property_own.
Qed.

(** [play(name)] for a name that has no entry in the source map and is
    not inherited creates no channel and keeps the current source and
    the source map, in every state.  If the component and its entity are
    both enabled, the live channel, if there is one, is stopped and
    released before the lookup, and that is all the call does; if either
    is disabled the call does nothing. *)
Lemma play_unknown_name (name : string) (s : State) :
  SourceMap s !! name = None → name ∉ Object_prototype →
  next_channel (play (Some name) s) = next_channel s
  ∧ filter (λ c, creates_channel c = true) (backend (play (Some name) s))
    = filter (λ c, creates_channel c = true) (backend s)
  ∧ currentSource (play (Some name) s) = currentSource s
  ∧ SourceMap (play (Some name) s) = SourceMap s
  ∧ (enabled s = true → entity_enabled s = true →
     channel (play (Some name) s) = None
     ∧ backend (play (Some name) s) = backend s ++ stop_calls s)
  ∧ (enabled s && entity_enabled s = false → play (Some name) s = s).
Proof.
  intros Hn Hp.
  assert (Hg : get_property (SourceMap s) (property_key (Some name)) = None)
    by (by apply get_property_None).
  destruct (enabled s && entity_enabled s) eqn:Hgate.
  - apply andb_true_iff in Hgate as [He Hee].
    rewrite play_missing by done. rewrite stop_eq.
    repeat apply conj; try done.
    cbn [backend set_channel set_backend]. unfold stop_calls. rewrite filter_app.
    destruct (channel s); [rewrite filter_cons_False by done|];
      by rewrite filter_nil, app_nil_r.
  - rewrite play_gate_closed by done.
    repeat apply conj; try done.
    intros He Hee. by rewrite He, Hee in Hgate.
Qed.

(** On the component that plays "b": [play("x")] stops channel 0 and
    creates nothing. *)
Remark play_unknown_name_sample :
  channel (play (Some "x") playing_b) = None
  ∧ currentSource (play (Some "x") playing_b) = Some "b"
  ∧ backend (play (Some "x") playing_b) = [call_playSound 0 (Sound 7); call_stop 0].
Proof. repeat apply conj; vm_compute; reflexivity. Qed.

(** When only the component is enabled and its entity is not, [play]
    returns at the gate: in [entity_disabled] channel 0 is live and
    [play("x")] neither stops nor releases it. *)
Remark play_on_disabled_entity :
  enabled entity_disabled = true
  ∧ entity_enabled entity_disabled = false
  ∧ SourceMap entity_disabled !! "x" = None
  ∧ (ch_id <$> channel entity_disabled) = Some 0
  ∧ channel (play (Some "x") entity_disabled) = channel entity_disabled
  ∧ backend (play (Some "x") entity_disabled) = backend entity_disabled
  ∧ backend entity_disabled = [call_playSound 0 (Sound 7); call_pause 0].
Proof. repeat apply conj; vm_compute; reflexivity. Qed.

(** C9 at a failing input.  The source map is an object literal and
    [sources[name]] (line 78) is a property read, which also finds what
    the object inherits.  On the enabled component that plays "b", with
    the source map {"b": R}, the name "constructor" is not a key of the
    source map, and yet [play("constructor")] stops channel 0, hands the
    inherited function to the backend, which creates channel 1 for it,
    and makes "constructor" the current source.  For a name that is
    neither a key nor inherited, [play_unknown_name] shows what the claim
    says. *)
Theorem C9_inherited_name_is_played :
  enabled playing_b = true ∧ entity_enabled playing_b = true
  ∧ SourceMap playing_b = {[ "b" := Sound 7 ]}
  ∧ SourceMap playing_b !! "constructor" = None
  ∧ currentSource playing_b = Some "b"
  ∧ channel (play (Some "constructor") playing_b)
    = Some {| ch_id := 1; ch_3d := false; ch_sound := Inherited "constructor";
              paused := false; suspended := false |}
  ∧ currentSource (play (Some "constructor") playing_b) = Some "constructor"
  ∧ backend (play (Some "constructor") playing_b)
    = [call_playSound 0 (Sound 7); call_stop 0;
       call_playSound 1 (Inherited "constructor")].
Proof. repeat apply conj; vm_compute; reflexivity. Qed.

(** *** Enable and disable *)

Lemma load_if_unloaded_loads s id :
  ∃ ls, load_if_unloaded s id = set_loads ls s.
Proof.
  unfold load_if_unloaded, registry_load.
  destruct (registry s !! id) as [a|]; [destruct (resource a)|];
    try (exists (loads s); by destruct s); by eexists.
Qed.

Lemma load_loop_loads (l : list string) : ∀ s,
  ∃ ls, foldl load_if_unloaded s l = set_loads ls s.
Proof.
  induction l as [|id l IH]; intros s; cbn.
  - exists (loads s). by destruct s.
  - destruct (load_if_unloaded_loads s id) as [ls ->].
    destruct (IH (set_loads ls s)) as [ls' ->]. by exists ls'.
Qed.

(** [onEnable] on an initialized system with a paused live channel
    resumes that channel, whatever [activate] is. *)
Lemma onEnable_resumes s c :
  initialized s = true → channel s = Some c → paused c = true →
  channel (onEnable s) = Some (Channel_unpause c)
  ∧ backend (onEnable s) = backend s ++ [call_unpause (ch_id c)]
  ∧ next_channel (onEnable s) = next_channel s
  ∧ currentSource (onEnable s) = currentSource s.
Proof.
  intros Hi Hc Hp. unfold onEnable.
  destruct (load_loop_loads (assets s) s) as [ls ->].
  cbn. rewrite Hi, Hc. rewrite andb_false_r.
  unfold unpause. cbn. rewrite Hc, Hp. done.
Qed.

(** C6.  [onDisable] pauses the live channel and keeps it in the channel
    slot; [onEnable] on an initialized system then resumes that same
    channel with [unpause]: the backend sees a pause and an unpause of
    the channel and no play call, and no channel is created.  This holds
    for every value of [activate], in particular when it is false. *)
Theorem C6_disable_then_enable_resumes (s : State) (c : Channel) :
  channel s = Some c → initialized s = true →
  channel (onDisable s) = Some (Channel_pause c)
  ∧ backend (onDisable s) = backend s ++ [call_pause (ch_id c)]
  ∧ channel (onEnable (onDisable s)) = Some (Channel_unpause (Channel_pause c))
  ∧ ch_id (Channel_unpause (Channel_pause c)) = ch_id c
  ∧ backend (onEnable (onDisable s))
    = backend s ++ [call_pause (ch_id c); call_unpause (ch_id c)]
  ∧ next_channel (onEnable (onDisable s)) = next_channel s.
Proof.
  intros Hc Hi.
  assert (H1 : channel (onDisable s) = Some (Channel_pause c)).
  { unfold onDisable, pause. by rewrite Hc. }
  assert (H2 : backend (onDisable s) = backend s ++ [call_pause (ch_id c)]).
  { unfold onDisable, pause. by rewrite Hc. }
  assert (H3 : initialized (onDisable s) = true).
  { unfold onDisable, pause. by rewrite Hc. }
  assert (H4 : next_channel (onDisable s) = next_channel s).
  { unfold onDisable, pause. by rewrite Hc. }
  destruct (onEnable_resumes (onDisable s) (Channel_pause c) H3 H1 eq_refl)
    as (E1 & E2 & E3 & _).
  repeat split; try done.
  - rewrite E2, H2, <- app_assoc. done.
  - by rewrite E3.
Qed.

(** C6 on the component that plays "b" with [activate] switched off. *)
Lemma C6_disable_then_enable_resumes_witness :
  activate (params playing_b_manual) = false
  ∧ initialized playing_b_manual = true
  ∧ backend (onEnable (onDisable playing_b_manual))
    = [call_playSound 0 (Sound 7); call_pause 0; call_unpause 0]
  ∧ (ch_id <$> channel (onEnable (onDisable playing_b_manual))) = Some 0
  ∧ (paused <$> channel (onEnable (onDisable playing_b_manual))) = Some false.
Proof.
  assert (Hc : channel playing_b_manual
               = Some {| ch_id := 0; ch_3d := false; ch_sound := Sound 7;
                         paused := false; suspended := false |})
    by (vm_compute; reflexivity).
  assert (Hi : initialized playing_b_manual = true) by (vm_compute; reflexivity).
  destruct (C6_disable_then_enable_resumes playing_b_manual _ Hc Hi)
    as (_ & _ & H3 & _ & H5 & _).
  split; [ vm_compute; reflexivity | ].
  split; [ exact Hi | ].
  split; [ rewrite H5; vm_compute; reflexivity | ].
  split; rewrite H3; reflexivity.
Defined.

(** *** Parameter setters *)






(** The same on the positional sample. *)
Remark setVolume_nan_is_a_change :
  backend (setVolume nan (setVolume nan playing3d))
  = [call_setVolume 0 nan; call_setVolume 0 nan].
Proof. vm_compute. reflexivity. Qed.

(** *** Switching between positional and non-positional playback *)

Lemma truthy_Some n : n ≠ "" → truthy (Some n) = true.
Proof. intros H. unfold truthy. by apply negb_true_iff, String.eqb_neq. Qed.

(** One call of [setPositional] on a component whose current source has
    an entry in the source map and which has a live channel: there is a
    live channel afterwards and it carries the flags of the old one. *)
Lemma setPositional_flags (v : bool) (s : State) (n : string) (r : Resource) (c : Channel) :
  initialized s = true → currentSource s = Some n → n ≠ "" →
  SourceMap s !! n = Some r → channel s = Some c →
  let s1 := setPositional v s in
  (∃ c1, channel s1 = Some c1 ∧ paused c1 = paused c ∧ suspended c1 = suspended c)
  ∧ initialized s1 = true ∧ currentSource s1 = Some n ∧ SourceMap s1 !! n = Some r.
Proof.
  intros Hi Hcur Hn Hr Hc. cbn zeta. unfold setPositional, onSet3d.
  set (s0 := set_params _ s).
  destruct (negb (Bool.eqb (is3d (params s)) v)).
  2:{ subst s0. cbn. rewrite Hc. split; [by exists c | done]. }
  change (initialized s0) with (initialized s). rewrite Hi.
  change (currentSource s0) with (currentSource s). rewrite Hcur, (truthy_Some n Hn).
  change (channel s0) with (channel s). rewrite Hc. cbn [andb].
  destruct (enabled s && entity_enabled s) eqn:Hgate.
  - apply andb_true_iff in Hgate as [He Hee].
    rewrite (play_found (Some n) r s0) by done.
    rewrite stop_eq. cbn. split; [ eexists; split; [reflexivity | done] | ].
    split; [done|]. split; [done|]. exact Hr.
  - rewrite (play_gate_closed (Some n) s0) by done.
    change (channel s0) with (channel s). rewrite Hc. cbn.
    split; [ eexists; split; [reflexivity | done] | done ].
Qed.

(** A call of [setPositional] that changes the mode, on an enabled
    component: the live channel is stopped and a channel of the new mode
    is created for the current source, with the old flags. *)
Lemma setPositional_rebuild (v : bool) (s : State) (n : string) (r : Resource) (c : Channel) :
  enabled s = true → entity_enabled s = true → is3d (params s) = negb v →
  initialized s = true → currentSource s = Some n → n ≠ "" →
  SourceMap s !! n = Some r → channel s = Some c →
  setPositional v s =
    set_channel
      (Some {| ch_id := next_channel s; ch_3d := v; ch_sound := r;
               paused := paused c; suspended := suspended c |})
      (set_currentSource (Some n)
         (set_next_channel (S (next_channel s))
            (set_backend
               (backend s ++
                  [ call_stop (ch_id c);
                    if v then call_playSound3d (next_channel s) r (entity_position s)
                    else call_playSound (next_channel s) r ])
               (set_params (Params_set_is3d v (params s)) s)))).
Proof.
  intros He Hee H3 Hi Hcur Hn Hr Hc. unfold setPositional, onSet3d.
  set (s0 := set_params _ s).
  rewrite H3. replace (negb (Bool.eqb (negb v) v)) with true by by destruct v.
  change (initialized s0) with (initialized s). rewrite Hi.
  change (currentSource s0) with (currentSource s). rewrite Hcur, (truthy_Some n Hn).
  change (channel s0) with (channel s). rewrite Hc. cbn [andb].
  rewrite (play_found (Some n) r s0) by done.
  rewrite stop_eq. unfold stop_calls, play_call, new_channel.
  change (channel s0) with (channel s). rewrite Hc.
  subst s0. destruct s. unfold_setters. rewrite <- app_assoc. destruct v; reflexivity.
Qed.

(** C5, as the source has it.  Let the component be initialized, let its
    current source be a non-empty name that has an entry in the source
    map, and let the live channel be paused.  Then after
    [setPositional(true)] followed by [setPositional(false)] there is a
    live channel, it is paused and it has the suspended flag of the
    channel before the swaps.  If moreover the component and its entity
    are enabled and the component was not positional, both calls rebuild
    the channel: the old channel is stopped and a positional one is
    created, that one is stopped and a non-positional one is created, and
    the flags are written to each new channel. *)
Theorem C5_positional_round_trip (s : State) (n : string) (r : Resource) (c : Channel) :
  initialized s = true → currentSource s = Some n → n ≠ "" →
  SourceMap s !! n = Some r →
  channel s = Some c → paused c = true →
  let s2 := setPositional false (setPositional true s) in
  (∃ c2, channel s2 = Some c2 ∧ paused c2 = true ∧ suspended c2 = suspended c)
  ∧ (enabled s = true → entity_enabled s = true → is3d (params s) = false →
     channel s2 = Some {| ch_id := S (next_channel s); ch_3d := false; ch_sound := r;
                          paused := true; suspended := suspended c |}
     ∧ backend s2 = backend s ++
         [ call_stop (ch_id c);
           call_playSound3d (next_channel s) r (entity_position s);
           call_stop (next_channel s);
           call_playSound (S (next_channel s)) r ]).
Proof.
  intros Hi Hcur Hn Hr Hc Hp. cbn zeta. split.
  - destruct (setPositional_flags true s n r c Hi Hcur Hn Hr Hc)
      as ((c1 & Hc1 & Hp1 & Hs1) & Hi1 & Hcur1 & Hr1).
    destruct (setPositional_flags false (setPositional true s) n r c1 Hi1 Hcur1 Hn Hr1 Hc1)
      as ((c2 & Hc2 & Hp2 & Hs2) & _).
    exists c2. split; [done|]. split; congruence.
  - intros He Hee H3.
    rewrite (setPositional_rebuild true s n r c) by done.
    erewrite (setPositional_rebuild false _ n r); try done.
    cbn. rewrite Hp, <- app_assoc. done.
Qed.

(** C5 on the paused component whose current source "b" is in the source
    map: after both swaps channel 2 is live, non-positional and paused. *)
Lemma C5_positional_round_trip_witness :
  initialized (pause playing_b) = true
  ∧ currentSource (pause playing_b) = Some "b"
  ∧ SourceMap (pause playing_b) !! "b" = Some (Sound 7)
  ∧ channel (setPositional false (setPositional true (pause playing_b)))
    = Some {| ch_id := 2; ch_3d := false; ch_sound := Sound 7;
              paused := true; suspended := false |}.
Proof.
  assert (Hi : initialized (pause playing_b) = true) by (vm_compute; reflexivity).
  assert (Hcur : currentSource (pause playing_b) = Some "b") by (vm_compute; reflexivity).
  assert (Hr : SourceMap (pause playing_b) !! "b" = Some (Sound 7))
    by (vm_compute; reflexivity).
  assert (Hc : channel (pause playing_b)
               = Some {| ch_id := 0; ch_3d := false; ch_sound := Sound 7;
                         paused := true; suspended := false |})
    by (vm_compute; reflexivity).
  assert (Hn : "b" ≠ "") by discriminate.
  destruct (C5_positional_round_trip (pause playing_b) "b" (Sound 7) _
              Hi Hcur Hn Hr Hc eq_refl) as [_ H].
  destruct H as [H _]; [ vm_compute; reflexivity .. | ].
  split; [exact Hi|]. split; [exact Hcur|]. split; [exact Hr|].
  rewrite H. vm_compute. reflexivity.
Defined.

(** C5 as stated fails when the current source has no entry in the source
    map.  In [stale_current] the component is initialized, the current
    source is "a" and the live channel is paused; the first swap stops
    the channel, [play] finds no source "a" and creates nothing, and after
    both swaps there is no live channel. *)
Lemma C5_no_channel_after_swaps :
  initialized stale_current = true
  ∧ currentSource stale_current = Some "a"
  ∧ (paused <$> channel stale_current) = Some true
  ∧ (suspended <$> channel stale_current) = Some false
  ∧ SourceMap stale_current !! "a" = None
  ∧ channel (setPositional false (setPositional true stale_current)) = None.
Proof. repeat apply conj; vm_compute; reflexivity. Qed.

(** ** Asset events *)

Lemma SourceMap_dict_delete key s :
  SourceMap (dict_delete (sources s) key s) = delete key (SourceMap s).
Proof. unfold SourceMap, dict_delete, dict. cbn. by rewrite lookup_insert_eq. Qed.

Lemma SourceMap_dict_set key r s :
  SourceMap (dict_set (sources s) key r s) = <[key := r]> (SourceMap s).
Proof. unfold SourceMap, dict_set, dict. cbn. by rewrite lookup_insert_eq. Qed.

(** The handler on an asset whose name has an entry in the source map. *)
Lemma onAssetRemoved_present id a r s :
  registry s !! id = Some a → SourceMap s !! name a = Some r →
  removal_effect (name a) s (onAssetRemoved id s).
Proof.
  intros Ha Hr. unfold onAssetRemoved. rewrite Ha.
  change (SourceMap (set_registry _ s)) with (SourceMap s).
  rewrite (get_property_own _ _ _ Hr).
  cbn zeta.
  set (s1 := set_registry _ s).
  change (sources s1) with (sources s).
  assert (Hsm : SourceMap (dict_delete (sources s) (name a) s1)
                = delete (name a) (SourceMap s)).
  { apply (SourceMap_dict_delete (name a) s1). }
  change (currentSource (dict_delete (sources s) (name a) s1)) with (currentSource s).
  case_bool_decide as Hcur.
  - rewrite stop_eq. split; [exact Hsm|]. split; [|done].
    intros _. done.
  - split; [exact Hsm|]. split; [done|]. intros _. done.
Qed.

(** The handler on an asset whose name has no entry and is not the
    current source: nothing but the subscription changes. *)
Lemma onAssetRemoved_absent id a s :
  registry s !! id = Some a → SourceMap s !! name a = None →
  currentSource s ≠ Some (name a) →
  SourceMap (onAssetRemoved id s) = SourceMap s
  ∧ currentSource (onAssetRemoved id s) = currentSource s
  ∧ channel (onAssetRemoved id s) = channel s
  ∧ backend (onAssetRemoved id s) = backend s.
Proof.
  intros Ha Hr Hcur. unfold onAssetRemoved. rewrite Ha.
  change (SourceMap (set_registry _ s)) with (SourceMap s).
  destruct (get_property (SourceMap s) (name a)); [|done].
  cbn zeta. set (s1 := set_registry _ s).
  change (sources s1) with (sources s).
  assert (Hsm : SourceMap (dict_delete (sources s) (name a) s1) = SourceMap s).
  { etrans; [apply (SourceMap_dict_delete (name a) s1)|].
    change (SourceMap s1) with (SourceMap s). by apply delete_id. }
  change (currentSource (dict_delete (sources s) (name a) s1)) with (currentSource s).
  rewrite bool_decide_eq_false_2 by done. by rewrite Hsm.
Qed.

Lemma onAssetRemoved_keeps_handle id a s :
  registry s !! id = Some a →
  ∃ a', registry (onAssetRemoved id s) !! id = Some a' ∧ name a' = name a.
Proof.
  intros Ha. unfold onAssetRemoved. rewrite Ha.
  change (SourceMap (set_registry _ s)) with (SourceMap s).
  destruct (get_property (SourceMap s) (name a)); cbn zeta.
  - case_bool_decide; rewrite ?stop_eq; cbn;
      (eexists; split; [ apply lookup_insert_eq | done ]).
  - eexists; split; [ apply lookup_insert_eq | done ].
Qed.

Lemma listeners_for_remove ls l :
  l ∈ listeners_for remove ls → l = remove_onAssetRemoved.
Proof.
  unfold listeners_for. rewrite list_elem_of_filter. intros [Hk _].
  by destruct l.
Qed.

(** Further calls of the handler in the same event find the entry gone
    and the name no longer current. *)
Lemma remove_again id nm (L : list Listener) : ∀ s a,
  (∀ l, l ∈ L → l = remove_onAssetRemoved) →
  registry s !! id = Some a → name a = nm → SourceMap s !! nm = None →
  currentSource s ≠ Some nm →
  let s' := foldl (call_listener id (asset_remove id)) s L in
  SourceMap s' = SourceMap s ∧ currentSource s' = currentSource s
  ∧ channel s' = channel s ∧ backend s' = backend s.
Proof.
  induction L as [|l L IH]; intros s a HL Ha Hnm Hn Hcur; cbn zeta; [done|].
  cbn [foldl]. rewrite (HL l) by apply list_elem_of_here.
  cbn [call_listener].
  subst nm.
  destruct (onAssetRemoved_absent id a s Ha Hn Hcur) as (E1 & E2 & E3 & E4).
  destruct (onAssetRemoved_keeps_handle id a s Ha) as (a' & Ha' & Hnm').
  destruct (IH (onAssetRemoved id s) a') as (F1 & F2 & F3 & F4).
  - intros l' Hl'. apply HL. by apply list_elem_of_further.
  - done.
  - done.
  - by rewrite E1.
  - by rewrite E2.
  - cbn zeta in *. rewrite F1, F2, F3, F4. done.
Qed.

(** Let the name of an asset have an entry in the source map.  The
    handler [onAssetRemoved], and with it a [remove] event delivered for
    an asset the component listens to, deletes that entry.  If the name
    is the current source, the live channel, if any, is stopped and
    released and the current source becomes [None]; otherwise the current
    source and the channel are as before and the backend is not called.
    ([removal_effect] spells this out.) *)
Lemma remove_event_when_subscribed (id : string) (a : Asset) (r : Resource) (s : State) :
  registry s !! id = Some a →
  SourceMap s !! name a = Some r →
  removal_effect (name a) s (onAssetRemoved id s)
  ∧ (remove_onAssetRemoved ∈ listeners a →
     removal_effect (name a) s (deliver s (asset_remove id))).
Proof.
  intros Ha Hr. split; [ by eapply onAssetRemoved_present | ].
  intros Hsub. unfold deliver, fire. rewrite Ha.
  assert (Hin : remove_onAssetRemoved ∈ listeners_for remove (listeners a)).
  { unfold listeners_for. by apply list_elem_of_filter. }
  assert (HL := listeners_for_remove (listeners a)).
  destruct (listeners_for remove (listeners a)) as [|l L] eqn:EL.
  { by apply elem_of_nil in Hin. }
  cbn [foldl]. rewrite (HL l) by apply list_elem_of_here. cbn [call_listener].
  destruct (onAssetRemoved_present id a r s Ha Hr) as (P1 & P2 & P3).
  destruct (onAssetRemoved_keeps_handle id a s Ha) as (a' & Ha' & Hnm).
  destruct (remove_again id (name a) L (onAssetRemoved id s) a') as (F1 & F2 & F3 & F4).
  - intros l' Hl'. apply HL. by apply list_elem_of_further.
  - done.
  - done.
  - rewrite P1. apply lookup_delete_eq.
  - destruct (decide (currentSource s = Some (name a))) as [Hc|Hc].
    + destruct (P2 Hc) as (_ & -> & _). done.
    + destruct (P3 Hc) as (-> & _). done.
  - cbn zeta in *. unfold removal_effect.
    change (SourceMap (set_registry ?x ?y)) with (SourceMap y).
    cbn [currentSource channel backend set_registry].
    rewrite F1, F2, F3, F4. done.
Qed.

(** On the component that plays "b", which listens to the asset: the
    removal of "b" empties the source map, stops channel 0 and clears
    the current source. *)
Remark remove_event_sample :
  currentSource playing_b = Some "b"
  ∧ SourceMap playing_b !! "b" = Some (Sound 7)
  ∧ SourceMap (deliver playing_b (asset_remove "b")) = ∅
  ∧ channel (deliver playing_b (asset_remove "b")) = None
  ∧ currentSource (deliver playing_b (asset_remove "b")) = None
  ∧ backend (deliver playing_b (asset_remove "b"))
    = [call_playSound 0 (Sound 7); call_stop 0].
Proof. repeat apply conj; vm_compute; reflexivity. Qed.

(** C7 at a failing input.  [onSetAssets] (lines 126-139) unsubscribes
    the component from every asset of the old list and the batch it
    starts subscribes only to the identifiers that the old list lacked
    (lines 144-157), so an asset that the new list keeps is no longer
    listened to.  In [kept_asset] the list ["b"] was assigned again and
    "b" played again: "b" is a key of the source map, the current source,
    and plays on channel 1.  The [remove] event of "b" then reaches no
    handler: the entry is not deleted, the channel is not stopped and
    the current source is not cleared, while the handle leaves the
    registry. *)
Theorem C7_remove_event_is_lost_for_a_kept_asset :
  assets kept_asset = ["b"]
  ∧ SourceMap kept_asset = {[ "b" := Sound 7 ]}
  ∧ currentSource kept_asset = Some "b"
  ∧ (ch_id <$> channel kept_asset) = Some 1
  ∧ (listeners <$> registry kept_asset !! "b") = Some [error__error 0]
  ∧ SourceMap (deliver kept_asset (asset_remove "b")) = {[ "b" := Sound 7 ]}
  ∧ currentSource (deliver kept_asset (asset_remove "b")) = Some "b"
  ∧ channel (deliver kept_asset (asset_remove "b")) = channel kept_asset
  ∧ backend (deliver kept_asset (asset_remove "b")) = backend kept_asset
  ∧ registry (deliver kept_asset (asset_remove "b")) !! "b" = None.
Proof. repeat apply conj; vm_compute; reflexivity. Qed.

(** ** Resource resolver *)

(** *** The empty list *)

(** The dictionary of a new batch is not the one the component uses. *)
Lemma new_dict_fresh s : new_dict s ≠ sources s.
Proof.
  unfold new_dict.
  pose proof (is_fresh (dom (objects s) ∪ {[ sources s ]})) as H.
  set_solver.
Qed.

(** The caller of [loadAudioSourceAssets] passes a non-empty list. *)
Lemma onSetAssets_loads_nonempty inTools oldValue newValue s :
  filter (λ id, id ∉ oldValue) newValue = [] →
  onSetAssets inTools oldValue newValue s = foldl unsubscribe_old s oldValue.
Proof.
  intros H. unfold onSetAssets. rewrite H.
  rewrite bool_decide_eq_true_2 by done. by rewrite andb_false_r.
Qed.

(** C3, as the source has it.  With an empty list the loop body never
    runs, and [_done] is only called from the loop body and from the
    [ready] callbacks: the call returns at once without a completion step
    and leaves the source map, the current source, the channel, the
    backend and the registry as they were.  The only caller,
    [onSetAssets], does not call with an empty list. *)
Theorem C3_empty_list_does_nothing (s : State) :
  let s' := loadAudioSourceAssets [] s in
  completions s' = completions s
  ∧ SourceMap s' = SourceMap s
  ∧ currentSource s' = currentSource s
  ∧ channel s' = channel s
  ∧ backend s' = backend s
  ∧ registry s' = registry s
  ∧ loads s' = loads s.
Proof.
  cbn zeta. unfold loadAudioSourceAssets. cbn [map foldl].
  repeat split.
  unfold SourceMap, dict. cbn.
  rewrite lookup_insert_ne; [done | apply new_dict_fresh].
Qed.

(** C3 as stated fails: on the component that plays "b" the call with the
    empty list keeps the entry "b" and the current source "b", and the
    log of completion steps is the same before and after. *)
Lemma C3_empty_list_keeps_sources :
  SourceMap (loadAudioSourceAssets [] playing_b) !! "b" = Some (Sound 7)
  ∧ SourceMap (loadAudioSourceAssets [] playing_b) ≠ ∅
  ∧ currentSource (loadAudioSourceAssets [] playing_b) = Some "b"
  ∧ completions playing_b = [0]
  ∧ completions (loadAudioSourceAssets [] playing_b) = [0].
Proof.
  assert (H : SourceMap (loadAudioSourceAssets [] playing_b) !! "b" = Some (Sound 7))
    by (vm_compute; reflexivity).
  repeat apply conj; try (vm_compute; reflexivity).
  intros E. rewrite E, lookup_empty in H. discriminate H.
Qed.

(** *** The first entry

    [currentSource = currentSource || asset.name] over a list of names
    selects [first_entry]. *)

Lemma truthy_Some_iff n : truthy (Some n) = true ↔ n ≠ "".
Proof. unfold truthy. rewrite negb_true_iff. apply String.eqb_neq. Qed.

Lemma js_or_fold_truthy (names : list string) (c : string) :
  c ≠ "" → foldl js_or (Some c) names = Some c.
Proof.
  intros Hc. induction names as [|n names IH]; [done|].
  cbn [foldl]. unfold js_or at 2. by rewrite (proj2 (truthy_Some_iff c) Hc).
Qed.

Lemma js_or_fold_falsy (names : list string) (a : option string) :
  truthy a = false → names ≠ [] →
  foldl js_or a names = Some (default "" (head (filter (λ n, n ≠ "") names))).
Proof.
  revert a. induction names as [|n names IH]; intros a Ha Hne; [done|].
  cbn [foldl]. unfold js_or at 2. rewrite Ha.
  destruct (decide (n = "")) as [->|Hn].
  - rewrite filter_cons_False by (intros H; by apply H).
    destruct names as [|n' names]; [done|].
    by apply IH.
  - rewrite filter_cons_True by done. cbn. by apply js_or_fold_truthy.
Qed.

Lemma js_or_fold_first_entry (names : list string) :
  foldl js_or None names = first_entry names.
Proof.
  destruct names as [|n names]; [done|].
  by rewrite js_or_fold_falsy.
Qed.

(** *** Normal forms of the controller operations

    [play], [pause], [unpause], [onEnable] and [_done] touch neither the
    registry nor the closures; [onEnable] keeps the current source and
    [_done] sets it to the closure's. *)

Lemma controller_update_id s :
  s = controller_update (channel s) (currentSource s) (next_channel s) (backend s) (loads s) s.
Proof. by destruct s. Qed.

Lemma set_loads_nf ls s :
  set_loads ls s =
    controller_update (channel s) (currentSource s) (next_channel s) (backend s) ls s.
Proof. by destruct s. Qed.

Lemma play_nf name s :
  ∃ c cs nc bk,
    play name s = controller_update c cs nc bk (loads s) s
    ∧ (cs = currentSource s ∨ cs = name).
Proof.
  destruct (enabled s && entity_enabled s) eqn:Hgate.
  - apply andb_true_iff in Hgate as [He Hee].
    destruct (get_property (SourceMap s) (property_key name)) as [r|] eqn:Hr.
    + rewrite (play_read name r s He Hee Hr), stop_eq.
      do 4 eexists. split; [ reflexivity | by right ].
    + rewrite (play_missing name s He Hee Hr), stop_eq.
      do 4 eexists. split; [ reflexivity | by left ].
  - rewrite (play_gate_closed name s Hgate).
    do 4 eexists. split; [ apply controller_update_id | by left ].
Qed.

Lemma unpause_nf s :
  ∃ c bk, unpause s = controller_update c (currentSource s) (next_channel s) bk (loads s) s.
Proof.
  unfold unpause. destruct (channel s) as [c|] eqn:Hc; [destruct (paused c)|].
  - do 2 eexists. reflexivity.
  - do 2 eexists. apply controller_update_id.
  - do 2 eexists. apply controller_update_id.
Qed.

Lemma pause_nf s :
  ∃ c bk, pause s = controller_update c (currentSource s) (next_channel s) bk (loads s) s.
Proof.
  unfold pause. destruct (channel s) as [c|] eqn:Hc.
  - do 2 eexists. reflexivity.
  - do 2 eexists. apply controller_update_id.
Qed.

Lemma onEnable_nf s :
  ∃ c nc bk ls, onEnable s = controller_update c (currentSource s) nc bk ls s.
Proof.
  unfold onEnable. destruct (load_loop_loads (assets s) s) as [ls ->].
  set (s' := set_loads ls s).
  destruct (initialized s').
  - destruct (activate (params s') && negb (bool_decide (is_Some (channel s')))).
    + destruct (play_nf (currentSource s') s') as (c & cs & nc & bk & -> & Hcs).
      assert (cs = currentSource s) as -> by (destruct Hcs; done).
      do 4 eexists. reflexivity.
    + destruct (unpause_nf s') as (c & bk & ->). do 4 eexists. reflexivity.
  - do 4 eexists. subst s'. apply set_loads_nf.
Qed.

Lemma _done_nf b B s :
  batches s !! b = Some B →
  ∃ c nc bk ls,
    _done b s = controller_update c (b_currentSource B) nc bk ls
                  (set_completions (completions s ++ [b]) (set_sources (b_sources B) s)).
Proof.
  intros HB. unfold _done. rewrite HB.
  set (s3 := set_completions _ _).
  destruct (enabled s3 && activate (params s3) && truthy (b_currentSource B)).
  - destruct (onEnable_nf s3) as (c & nc & bk & ls & ->).
    exists c, nc, bk, ls. subst s3. destruct s. unfold_setters. reflexivity.
  - exists (channel s), (next_channel s), (backend s), (loads s).
    subst s3. destruct s. unfold_setters. reflexivity.
Qed.

(** *** The closure variables are stable

    After the loop of its call, nothing assigns a closure's
    [currentSource]: no handler, no callback and no event. *)

Lemma closure_stable_refl s : closure_stable s s.
Proof. by intros b. Qed.

Lemma closure_stable_trans s1 s2 s3 :
  closure_stable s1 s2 → closure_stable s2 s3 → closure_stable s1 s3.
Proof. intros H1 H2 b. by rewrite H2, H1. Qed.

Lemma closure_stable_batches s s' : batches s' = batches s → closure_stable s s'.
Proof. intros H b. by rewrite H. Qed.

Lemma closure_stable_foldl {A} (f : State → A → State) (l : list A) :
  (∀ s x, closure_stable s (f s x)) → ∀ s, closure_stable s (foldl f s l).
Proof.
  intros Hf. induction l as [|x l IH]; intros s; cbn.
  - apply closure_stable_refl.
  - eapply closure_stable_trans; [ apply Hf | apply IH ].
Qed.

Lemma closure_stable_decrement b s : closure_stable s (decrement b s).
Proof.
  intros b'. unfold decrement, update_batch.
  destruct (batches s !! b) as [B|] eqn:HB; [|done].
  cbn. destruct (decide (b = b')) as [->|Hne].
  - by rewrite lookup_insert_eq, HB.
  - by rewrite lookup_insert_ne.
Qed.

Lemma closure_stable__done b s : closure_stable s (_done b s).
Proof.
  destruct (batches s !! b) as [B|] eqn:HB.
  - destruct (_done_nf b B s HB) as (c & nc & bk & ls & ->).
    by apply closure_stable_batches.
  - unfold _done. rewrite HB. apply closure_stable_refl.
Qed.

Lemma closure_stable_ready_callback b nm r s : closure_stable s (ready_callback b nm r s).
Proof.
  unfold ready_callback. destruct (batches s !! b) as [B|]; [|apply closure_stable_refl].
  cbn zeta.
  set (s1 := dict_set _ _ _ _).
  assert (H1 : closure_stable s (decrement b s1)).
  { eapply closure_stable_trans; [| apply closure_stable_decrement ].
    by apply closure_stable_batches. }
  destruct (count b (decrement b s1) =? 0)%Z; [|done].
  eapply closure_stable_trans; [ exact H1 | apply closure_stable__done ].
Qed.

Lemma closure_stable_call_ready cb nm r s : closure_stable s (call_ready cb nm r s).
Proof.
  destruct cb; cbn.
  - apply closure_stable_ready_callback.
  - by apply closure_stable_batches.
Qed.

Lemma closure_stable_Asset_ready id cb s : closure_stable s (Asset_ready id cb s).
Proof.
  unfold Asset_ready. destruct (registry s !! id) as [a|]; [|apply closure_stable_refl].
  destruct (resource a).
  - apply closure_stable_call_ready.
  - by apply closure_stable_batches.
Qed.

Lemma closure_stable_play name s : closure_stable s (play name s).
Proof.
  destruct (play_nf name s) as (c & cs & nc & bk & -> & _).
  by apply closure_stable_batches.
Qed.

Lemma closure_stable_pause s : closure_stable s (pause s).
Proof. destruct (pause_nf s) as (c & bk & ->). by apply closure_stable_batches. Qed.

Lemma closure_stable_onAssetChanged id attr v s :
  closure_stable s (onAssetChanged id attr v s).
Proof.
  unfold onAssetChanged.
  destruct (registry s !! id) as [a|]; [|apply closure_stable_refl].
  destruct (String.eqb attr "resource"); [|apply closure_stable_refl].
  cbn zeta. set (s1 := dict_set _ _ _ _).
  assert (H1 : closure_stable s s1) by by apply closure_stable_batches.
  case_bool_decide; [|done].
  destruct (channel s1) as [c|]; [|done].
  destruct (paused c).
  - eapply closure_stable_trans; [exact H1|].
    eapply closure_stable_trans; [apply closure_stable_play | apply closure_stable_pause].
  - eapply closure_stable_trans; [exact H1 | apply closure_stable_play].
Qed.

Lemma closure_stable_onAssetRemoved id s : closure_stable s (onAssetRemoved id s).
Proof.
  unfold onAssetRemoved.
  destruct (registry s !! id) as [a|]; [|apply closure_stable_refl].
  cbn zeta. set (s1 := set_registry _ _).
  destruct (get_property (SourceMap s1) (name a)); [|by apply closure_stable_batches].
  case_bool_decide.
  - rewrite stop_eq. by apply closure_stable_batches.
  - by apply closure_stable_batches.
Qed.

Lemma closure_stable_deliver s e : closure_stable s (deliver s e).
Proof.
  destruct e as [id r|id|id attr v|id|id a]; cbn.
  - unfold fire_load. destruct (registry s !! id) as [a|]; [|apply closure_stable_refl].
    cbn zeta. set (s1 := set_registry _ s).
    apply closure_stable_trans with (s2 := s1);
      [ by apply closure_stable_batches
      | apply closure_stable_foldl; intros; apply closure_stable_call_ready ].
  - unfold fire. destruct (registry s !! id) as [a|]; [|apply closure_stable_refl].
    apply closure_stable_foldl. intros s' [| |b]; cbn;
      try apply closure_stable_refl. apply closure_stable_decrement.
  - unfold fire. destruct (registry s !! id) as [a|]; [|apply closure_stable_refl].
    apply closure_stable_foldl. intros s' [| |b]; cbn;
      try apply closure_stable_refl. apply closure_stable_onAssetChanged.
  - apply closure_stable_trans with (s2 := fire id remove (asset_remove id) s);
      [| by apply closure_stable_batches ].
    unfold fire. destruct (registry s !! id) as [a|]; [|apply closure_stable_refl].
    apply closure_stable_foldl. intros s' [| |b]; cbn;
      try apply closure_stable_refl. apply closure_stable_onAssetRemoved.
  - apply closure_stable_trans with (s2 := set_registry (<[id := a]> (registry s)) s);
      [ by apply closure_stable_batches | apply closure_stable_foldl ].
    intros s' _. unfold on_add.
      set (s1 := Asset_ready _ _ _).
      assert (H1 : closure_stable s' s1) by apply closure_stable_Asset_ready.
      destruct (registry s1 !! id) as [a'|]; [|done].
      destruct (resource a'); [done|].
      eapply closure_stable_trans; [exact H1 | by apply closure_stable_batches].
Qed.

Lemma closure_stable_run es : ∀ s, closure_stable s (run s es).
Proof. apply closure_stable_foldl. apply closure_stable_deliver. Qed.

(** *** The loop of loadAudioSourceAssets *)

(** [count--] followed by the test [count === 0] and [_done()]. *)
Lemma settle_step b B s :
  batches s !! b = Some B →
  let s1 := decrement b s in
  let s' := if (count b s1 =? 0)%Z then _done b s1 else s1 in
  (∃ B', batches s' !! b = Some B' ∧ b_currentSource B' = b_currentSource B
         ∧ b_count B' = (b_count B - 1)%Z)
  ∧ registry s' = registry s
  ∧ ((b_count B - 1 ≠ 0)%Z ∧ completions s' = completions s
       ∧ currentSource s' = currentSource s
     ∨ (b_count B - 1 = 0)%Z ∧ completions s' = completions s ++ [b]
       ∧ currentSource s' = b_currentSource B).
Proof.
  intros HB. cbn zeta.
  assert (H1 : batches (decrement b s) = <[b := Batch_set_count (b_count B - 1) B]> (batches s)).
  { unfold decrement, update_batch. by rewrite HB. }
  assert (H2 : batches (decrement b s) !! b = Some (Batch_set_count (b_count B - 1) B)).
  { rewrite H1. apply lookup_insert_eq. }
  assert (H3 : count b (decrement b s) = (b_count B - 1)%Z).
  { unfold count. by rewrite H2. }
  assert (H4 : registry (decrement b s) = registry s
               ∧ completions (decrement b s) = completions s
               ∧ currentSource (decrement b s) = currentSource s).
  { unfold decrement, update_batch. by rewrite HB. }
  destruct H4 as (H4 & H5 & H6).
  rewrite H3. destruct (Z.eqb_spec (b_count B - 1) 0) as [Hz|Hz].
  - destruct (_done_nf b _ (decrement b s) H2) as (c & nc & bk & ls & ->).
    cbn. split; [ eexists; split; [ exact H2 | done ] | ].
    split; [exact H4|]. right. by rewrite H5.
  - split; [ eexists; split; [ exact H2 | done ] | ].
    split; [exact H4|]. left. done.
Qed.

Lemma names_insert_same (reg : gmap string Asset) id a a' :
  reg !! id = Some a → name a' = name a →
  name <$> <[id := a']> reg = name <$> reg.
Proof.
  intros Ha Hn. rewrite fmap_insert. apply insert_id.
  by rewrite lookup_fmap, Ha, Hn.
Qed.

Lemma forEach_body_invariant b n names0 cp0 cs0 acc k s id :
  k < n →
  loop_invariant b n names0 cp0 cs0 acc k s →
  loop_invariant b n names0 cp0 cs0 (next_entry names0 acc id) (S k)
    (forEach_body b s (id, bool_decide (is_Some (names0 !! id)))).
Proof.
  intros Hk ((B & HB & Hacc & Hcount) & Hnames & Hdone).
  destruct Hdone as [[Hcp Hcs]|[Hkn _]]; [|lia].
  assert (Hlook : names0 !! id = name <$> registry s !! id).
  { by rewrite <- Hnames, lookup_fmap. }
  unfold forEach_body, next_entry.
  destruct (registry s !! id) as [a|] eqn:Ha; rewrite Hlook; cbn [fmap option_fmap option_map].
  - rewrite bool_decide_eq_true_2 by by eexists.
    (* the handle is present *)
    set (B1 := Batch_set_currentSource (js_or (b_currentSource B) (name a)) B).
    set (s1 := update_batch b _ s).
    assert (Hs1 : s1 = set_batches (<[b := B1]> (batches s)) s).
    { subst s1. unfold update_batch. by rewrite HB. }
    cbn zeta.
    set (a' := Asset_set_listeners _ a).
    set (s2 := set_registry (<[id := a']> (registry s1)) s1).
    assert (HB2 : batches s2 !! b = Some B1).
    { subst s2. rewrite Hs1. cbn. apply lookup_insert_eq. }
    assert (Ha2 : registry s2 !! id = Some a').
    { subst s2. cbn. apply lookup_insert_eq. }
    assert (Hn2 : name <$> registry s2 = names0).
    { subst s2. rewrite Hs1. cbn. rewrite <- Hnames. by eapply names_insert_same. }
    assert (Hc2 : completions s2 = cp0 ∧ currentSource s2 = cs0).
    { subst s2. rewrite Hs1. done. }
    assert (Hstep : loop_invariant b n names0 cp0 cs0 (js_or acc (name a)) (S k)
                      (Asset_ready id (ready_batch b) s2)).
    { unfold Asset_ready. rewrite Ha2. change (resource a') with (resource a).
      change (name a') with (name a).
      destruct (resource a) as [r|].
      - cbn [call_ready]. unfold ready_callback. rewrite HB2.
        set (s4 := dict_set _ _ _ s2).
        assert (HB4 : batches s4 !! b = Some B1) by exact HB2.
        assert (Hc4 : completions s4 = cp0 ∧ currentSource s4 = cs0) by exact Hc2.
        assert (Hn4 : name <$> registry s4 = names0) by exact Hn2.
        destruct (settle_step b B1 s4 HB4) as ((B' & HB' & Hcur' & Hcnt') & Hreg' & Hfin).
        cbn zeta in *. split; [|split].
        + exists B'. split; [exact HB'|]. split.
          * rewrite Hcur'. subst B1. cbn. by rewrite Hacc.
          * rewrite Hcnt'. subst B1. cbn. lia.
        + rewrite Hreg'. exact Hn4.
        + destruct Hfin as [(Hz & E1 & E2)|(Hz & E1 & E2)].
          * left. rewrite E1, E2. exact Hc4.
          * right. split; [ subst B1; cbn in Hz; lia | ].
            rewrite E1, E2. split; [ by rewrite (proj1 Hc4) | ].
            subst B1. cbn. by rewrite Hacc.
      - split; [|split].
        + exists B1. split; [exact HB2|]. split.
          * subst B1. cbn. by rewrite Hacc.
          * subst B1. cbn. lia.
        + cbn. rewrite <- Hn2. by eapply names_insert_same.
        + left. exact Hc2. }
    destruct (resource a); [exact Hstep|].
    destruct (enabled _ && entity_enabled _); [|exact Hstep].
    exact Hstep.
  - rewrite bool_decide_eq_false_2 by (intros [? ?]; done).
    (* the handle is absent *)
    destruct (settle_step b B s HB) as ((B' & HB' & Hcur' & Hcnt') & Hreg' & Hfin).
    cbn zeta in *. split; [|split].
    + exists B'. split; [exact HB'|]. split; [ by rewrite Hcur' | rewrite Hcnt'; lia ].
    + cbn. rewrite Hreg'. exact Hnames.
    + destruct Hfin as [(Hz & E1 & E2)|(Hz & E1 & E2)].
      * left. cbn. by rewrite E1, E2.
      * right. split; [lia|]. cbn. rewrite E1, E2, Hcp, Hacc. done.
Qed.

Lemma forEach_invariant b n names0 cp0 cs0 (ids : list string) : ∀ acc k s,
  k + length ids = n →
  loop_invariant b n names0 cp0 cs0 acc k s →
  loop_invariant b n names0 cp0 cs0 (foldl (next_entry names0) acc ids) n
    (foldl (forEach_body b) s
       (map (λ id, (id, bool_decide (is_Some (names0 !! id)))) ids)).
Proof.
  induction ids as [|id ids IH]; intros acc k s Hlen Hinv; cbn in *.
  - assert (k = n) as -> by lia. exact Hinv.
  - apply (IH _ (S k)); [lia|].
    apply forEach_body_invariant; [lia | exact Hinv].
Qed.

Lemma next_entry_present_names (reg : gmap string Asset) (ids : list string) : ∀ acc,
  foldl (next_entry (name <$> reg)) acc ids = foldl js_or acc (present_names reg ids).
Proof.
  unfold present_names.
  induction ids as [|id ids IH]; intros acc; cbn; [done|].
  unfold next_entry at 2. rewrite lookup_fmap.
  destruct (reg !! id) as [a|]; cbn; apply IH.
Qed.

Lemma loadAudioSourceAssets_invariant (ids : list string) (s : State) :
  loop_invariant (new_batch s) (length ids) (name <$> registry s)
    (completions s) (currentSource s)
    (first_entry (present_names (registry s) ids)) (length ids)
    (loadAudioSourceAssets ids s).
Proof.
  rewrite <- js_or_fold_first_entry, <- next_entry_present_names.
  unfold loadAudioSourceAssets. cbn zeta.
  rewrite (map_ext _ (λ id, (id, bool_decide (is_Some ((name <$> registry s) !! id))))).
  2:{ intros id. f_equal. apply bool_decide_ext. by rewrite lookup_fmap, fmap_is_Some. }
  apply (forEach_invariant _ _ _ _ _ ids None 0); [done|].
  split; [|split].
  - eexists. split; [ apply lookup_insert_eq | ]. cbn. rewrite length_map. split; [done|lia].
  - done.
  - by left.
Qed.

(** C2, as the source has it.  The closure's [currentSource] is assigned
    in the loop, before the asset is asked for its resource: it is the
    first entry of the names of the handles that are present, whether or
    not those assets resolve.  The call of [loadAudioSourceAssets] either
    does not finalize or finalizes once and then the current source is
    that first entry; after the call and any events the closure still
    holds the first entry, and a run of [_done] commits it.  For
    ["a"; "b"] where "a" fails and "b" then resolves, the batch finalizes
    with the source map {"b": R} and the current source "a". *)
Theorem C2_currentSource_is_first_entry (ids : list string) (s : State) :
  let b := new_batch s in
  let s1 := loadAudioSourceAssets ids s in
  let first := first_entry (present_names (registry s) ids) in
  (completions s1 = completions s
   ∨ completions s1 = completions s ++ [b] ∧ currentSource s1 = first)
  ∧ (∀ es, b_currentSource <$> batches (run s1 es) !! b = Some first)
  ∧ (∀ es, currentSource (_done b (run s1 es)) = first
           ∧ completions (_done b (run s1 es)) = completions (run s1 es) ++ [b])
  ∧ (let sc := run (loadAudioSourceAssets ["a"; "b"] (component registry_abc))
                 [asset_error "a"; asset_load "b" (Sound 7)] in
     completions sc = [0] ∧ SourceMap sc = {[ "b" := Sound 7 ]}
     ∧ currentSource sc = Some "a").
Proof.
  cbn zeta.
  destruct (loadAudioSourceAssets_invariant ids s) as ((B & HB & Hcur & _) & _ & Hfin).
  assert (Hclosure : ∀ es,
            b_currentSource <$> batches (run (loadAudioSourceAssets ids s) es) !! new_batch s
            = Some (first_entry (present_names (registry s) ids))).
  { intros es. rewrite (closure_stable_run es _ (new_batch s)), HB. cbn. by rewrite Hcur. }
  split; [|split; [exact Hclosure | split]].
  - destruct Hfin as [[-> _]|(_ & -> & ->)]; [by left | by right].
  - intros es. specialize (Hclosure es).
    destruct (batches (run (loadAudioSourceAssets ids s) es) !! new_batch s)
      as [B'|] eqn:HB'; [|done].
    destruct (_done_nf _ B' _ HB') as (c & nc & bk & ls & ->).
    cbn in *. split; [congruence | done].
  - repeat apply conj; vm_compute; reflexivity.
Qed.

(** C2 as stated fails on its own scenario: the source map is {"b": R} and
    the current source is "a", the first entry, not "b". *)
Lemma C2_first_entry_is_the_failed_asset :
  let s := run (loadAudioSourceAssets ["a"; "b"] (component registry_abc))
             [asset_error "a"; asset_load "b" (Sound 7)] in
  completions s = [0]
  ∧ SourceMap s = {[ "b" := Sound 7 ]}
  ∧ currentSource s = Some "a"
  ∧ currentSource s ≠ Some "b".
Proof. repeat apply conj; try (vm_compute; reflexivity). vm_compute. discriminate. Qed.

(** *** An error that settles last *)

(** C1 at two failing inputs.  [_error] decrements [count] and does not
    test it: it never runs [_done], whatever the count.  For ["a"] where
    "a" fails, and for ["a"; "b"] where "b" resolves and then "a" fails,
    the count is zero after the last event and [_done] has never run: the
    entry of "b" stays in the batch's dictionary (address 1) and the
    source map is still empty.  With the same two events in the other
    order the batch finalizes. *)
Theorem C1_error_settling_last_stalls_the_batch :
  let one := run (loadAudioSourceAssets ["a"] (component registry_abc)) [asset_error "a"] in
  let two := run (loadAudioSourceAssets ["a"; "b"] (component registry_abc))
               [asset_load "b" (Sound 7); asset_error "a"] in
  let two' := run (loadAudioSourceAssets ["a"; "b"] (component registry_abc))
                [asset_error "a"; asset_load "b" (Sound 7)] in
  (∀ b s, completions (_error b s) = completions s
          ∧ sources (_error b s) = sources s
          ∧ currentSource (_error b s) = currentSource s)
  ∧ (count 0 one = 0%Z ∧ completions one = [])
  ∧ (count 0 two = 0%Z ∧ completions two = []
     ∧ dict 1 two = {[ "b" := Sound 7 ]} ∧ SourceMap two = ∅)
  ∧ (count 0 two' = 0%Z ∧ completions two' = [0]
     ∧ SourceMap two' = {[ "b" := Sound 7 ]}).
Proof.
  cbn zeta. split.
  - intros b s. unfold _error, decrement, update_batch.
    by destruct (batches s !! b).
  - repeat apply conj; vm_compute; reflexivity.
Qed.

(** *** Subscriptions

    The listeners of a handle after the three off/on pairs, whatever was
    subscribed before: one for [change], one for [remove], and for
    [error] the closures of the other batches followed by the new one. *)

Lemma listeners_for_on k l ls :
  listeners_for k (on l ls)
  = listeners_for k ls ++ (if decide (kind_of l = k) then [l] else []).
Proof.
  unfold listeners_for, on. rewrite filter_app. reflexivity.
Qed.

Lemma listeners_for_off k l ls :
  listeners_for k (off l ls) = filter (λ l', l' ≠ l) (listeners_for k ls).
Proof.
  unfold listeners_for, off. rewrite !list_filter_filter.
  apply list_filter_iff. intros x. tauto.
Qed.

Lemma filter_single_kind (l : Listener) k (ls : list Listener) :
  (∀ l', kind_of l' = k → l' = l) →
  filter (λ l', l' ≠ l) (listeners_for k ls) = [].
Proof.
  intros Hl. unfold listeners_for. induction ls as [|x ls IH]; [done|].
  destruct (decide (kind_of x = k)) as [Hk|Hk].
  - rewrite (filter_cons_True _ x ls) by done.
    rewrite filter_cons_False; [exact IH|]. intros H. apply H. by apply Hl.
  - by rewrite (filter_cons_False _ x ls).
Qed.

Lemma filter_other_kind (l : Listener) k (ls : list Listener) :
  kind_of l ≠ k →
  filter (λ l', l' ≠ l) (listeners_for k ls) = listeners_for k ls.
Proof.
  intros Hl. unfold listeners_for. induction ls as [|x ls IH]; [done|].
  destruct (decide (kind_of x = k)) as [Hk|Hk].
  - rewrite (filter_cons_True _ x ls) by done.
    rewrite filter_cons_True by congruence. by rewrite IH.
  - by rewrite (filter_cons_False _ x ls).
Qed.

Lemma subscribe_listeners (b : nat) (ls : list Listener) :
  listeners_for change (subscribe b ls) = [change_onAssetChanged]
  ∧ listeners_for remove (subscribe b ls) = [remove_onAssetRemoved]
  ∧ listeners_for error (subscribe b ls)
    = filter (λ l, l ≠ error__error b) (listeners_for error ls) ++ [error__error b].
Proof.
  unfold subscribe. cbn zeta.
  rewrite !listeners_for_on, !listeners_for_off, !listeners_for_on, !listeners_for_off,
    !listeners_for_on, !listeners_for_off.
  cbn [kind_of]. repeat (rewrite decide_True by done || rewrite decide_False by done).
  rewrite !app_nil_r.
  split; [|split].
  - rewrite (filter_single_kind change_onAssetChanged) by (by intros []).
    reflexivity.
  - rewrite (filter_other_kind change_onAssetChanged) by done.
    rewrite (filter_single_kind remove_onAssetRemoved) by (by intros []).
    reflexivity.
  - rewrite (filter_other_kind change_onAssetChanged) by done.
    rewrite (filter_other_kind remove_onAssetRemoved) by done. done.
Qed.

(** C4 at a failing input.  [off('error', _error, this)] names the closure
    of the current call and removes nothing of an earlier call: after two
    calls for ["a"] the handle has one [change] and one [remove] listener
    and two [error] listeners, and one error event counts off both
    batches.  The same state of the listeners is reached through the
    [assets] property, by setting it to ["a"], to [] and to ["a"] again. *)
Theorem C4_error_listeners_accumulate :
  let s := loadAudioSourceAssets ["a"] (loadAudioSourceAssets ["a"] (component registry_abc)) in
  let s' := setAssets false ["a"]
              (setAssets false [] (setAssets false ["a"] (component registry_abc))) in
  (listeners <$> registry s !! "a")
    = Some [error__error 0; change_onAssetChanged; remove_onAssetRemoved; error__error 1]
  ∧ (length ∘ listeners_for change ∘ listeners <$> registry s !! "a") = Some 1
  ∧ (length ∘ listeners_for remove ∘ listeners <$> registry s !! "a") = Some 1
  ∧ (length ∘ listeners_for error ∘ listeners <$> registry s !! "a") = Some 2
  ∧ count 0 (deliver s (asset_error "a")) = 0%Z
  ∧ count 1 (deliver s (asset_error "a")) = 0%Z
  ∧ (listeners <$> registry s' !! "a") = (listeners <$> registry s !! "a").
Proof. repeat apply conj; vm_compute; reflexivity. Qed.

End AudioSourceProperties.

(* ===================================================================== *)
(** * Further properties of plane.js *)
(* ===================================================================== *)

Section PlaneEdgeCases.

Import Plane.

(** ** The parameter of [intersectsLine] on degenerate input *)

(** [x - x] is a zero or NaN. *)
Lemma SF64sub_diag (x : spec_float) :
  SF64sub x x = S754_zero false ∨ SF64sub x x = S754_nan.
Proof.
  destruct x as [s|s| |s m e]; cbn.
  - left. by destruct s.
  - right. by destruct s.
  - by right.
  - left. unfold SF64sub, SFsub. by rewrite Z.sub_diag.
Qed.

Lemma ratio_degenerate (d : float) :
  PrimFloat.leb 0 (d / (d - d)) && PrimFloat.leb (d / (d - d)) 1 = false.
Proof.
  rewrite !FloatAxioms.leb_spec, FloatAxioms.div_spec, FloatAxioms.sub_spec.
  destruct (SF64sub_diag (Prim2SF d)) as [-> | ->];
    destruct (Prim2SF d) as [s|s| |s m e]; try reflexivity;
    destruct s; reflexivity.
Qed.

Lemma eqb_zero (d : float) :
  PrimFloat.eqb d 0 = true → ∃ s, Prim2SF d = S754_zero s.
Proof.
  rewrite FloatAxioms.eqb_spec. change (Prim2SF 0) with (S754_zero false).
  destruct (Prim2SF d) as [s|s| |s m e]; cbn; try discriminate.
  - by exists s.
  - destruct s; discriminate.
  - destruct s; discriminate.
Qed.

Lemma ratio_in_plane (d0 d1 : float) :
  PrimFloat.eqb d0 0 = true → PrimFloat.eqb d1 0 = true →
  PrimFloat.leb 0 (d0 / (d0 - d1)) && PrimFloat.leb (d0 / (d0 - d1)) 1 = false.
Proof.
  intros [s0 H0]%eqb_zero [s1 H1]%eqb_zero.
  rewrite !FloatAxioms.leb_spec, FloatAxioms.div_spec, FloatAxioms.sub_spec, H0, H1.
  destruct s0, s1; reflexivity.
Qed.

Lemma ltb_nonzero (d : float) :
  PrimFloat.ltb d 0 || PrimFloat.ltb 0 d = true →
  (∃ s, Prim2SF d = S754_infinity s) ∨ (∃ s m e, Prim2SF d = S754_finite s m e).
Proof.
  rewrite !FloatAxioms.ltb_spec. change (Prim2SF 0) with (S754_zero false).
  destruct (Prim2SF d) as [s|s| |s m e]; cbn; try discriminate.
  - intros _. left. by exists s.
  - intros _. right. by exists s, m, e.
Qed.

(** [intersectsLine] in terms of the two distance terms [d0] and [d1]. *)
Lemma intersectsLine_eq (start end_ : loc) (out : option loc) (m : Mem) :
  intersectsLine start end_ out m =
    let t := (side m start / (side m start - side m end_))%float in
    (match PrimFloat.leb 0 t && PrimFloat.leb t 1, out with
     | true, Some p => Vec3_lerp p start end_ t m
     | _, _ => m
     end,
     PrimFloat.leb 0 t && PrimFloat.leb t 1).
Proof. reflexivity. Qed.

(** X1.  A segment whose two ends are the same point never intersects,
    wherever the point lies, also when it lies in the plane: [d0 - d1]
    is zero (or NaN), so [t] is infinite or NaN and fails one of the two
    comparisons.  Nothing is written. *)
Theorem intersectsLine_degenerate_segment (start end_ : loc) (out : option loc) (m : Mem) :
  deref m start = deref m end_ →
  intersectsLine start end_ out m = (m, false).
Proof.
  intros H. rewrite intersectsLine_eq. cbn zeta.
  assert (Hs : side m end_ = side m start) by (unfold side; by rewrite H).
  rewrite Hs, ratio_degenerate. by destruct out.
Qed.

Lemma intersectsLine_degenerate_segment_witness :
  intersectsLine 2 2 (Some 4) sample_ray = (sample_ray, false).
Proof. apply intersectsLine_degenerate_segment. reflexivity. Defined.

(** X2.  A segment that lies in the plane (both distance terms are zero)
    is reported as not intersecting: [t] is 0/0.  Nothing is written. *)
Theorem intersectsLine_segment_in_plane (start end_ : loc) (out : option loc) (m : Mem) :
  PrimFloat.eqb (side m start) 0 = true →
  PrimFloat.eqb (side m end_) 0 = true →
  intersectsLine start end_ out m = (m, false).
Proof.
  intros H0 H1. rewrite intersectsLine_eq. cbn zeta.
  rewrite (ratio_in_plane _ _ H0 H1). by destruct out.
Qed.

Lemma intersectsLine_segment_in_plane_witness :
  intersectsLine 0 4 (Some 2) (store 4 (Vec3.new 5 5 0) sample)
  = (store 4 (Vec3.new 5 5 0) sample, false).
Proof. apply intersectsLine_segment_in_plane; vm_compute; reflexivity. Defined.

(** X3.  A segment that starts in the plane and ends off it, on either
    side and also infinitely far, intersects: [t] is a zero. *)
Theorem intersectsLine_from_the_plane (start end_ : loc) (out : option loc) (m : Mem) :
  PrimFloat.eqb (side m start) 0 = true →
  PrimFloat.ltb (side m end_) 0 || PrimFloat.ltb 0 (side m end_) = true →
  (intersectsLine start end_ out m).2 = true.
Proof.
  intros [s0 H0]%eqb_zero H1. rewrite intersectsLine_eq. cbn zeta. cbn [snd].
  rewrite !FloatAxioms.leb_spec, FloatAxioms.div_spec, FloatAxioms.sub_spec, H0.
  change (Prim2SF 0) with (S754_zero false).
  destruct (ltb_nonzero _ H1) as [[s ->] | (s & mm & e & ->)];
    destruct s0, s; reflexivity.
Qed.

Lemma intersectsLine_from_the_plane_witness :
  (intersectsLine 0 3 None sample).2 = true.
Proof.
  apply intersectsLine_from_the_plane; vm_compute; reflexivity.
Defined.

(** ** [intersectsRay] *)

Lemma intersectsRay_eq (tmp : loc) (ray : Ray) (out : option loc) (m : Mem) :
  ∃ t : float,
    intersectsRay tmp ray out m =
      let m1 := Vec3_sub2 tmp (point (this m)) (origin ray) m in
      (match PrimFloat.leb 0 t, out with
       | true, Some p =>
           Vec3_add p (origin ray) (Vec3_mulScalar p t (Vec3_copy p (direction ray) m1))
       | _, _ => m1
       end,
       PrimFloat.leb 0 t).
Proof. eexists. reflexivity. Qed.

(** X4.  What a call of [intersectsRay] writes.  Every call overwrites
    the module's temporary vector, with [this.point - ray.origin]; the
    out-parameter is written (three times: copy, mulScalar, add) exactly
    when the call returns true and the parameter was supplied; the plane
    keeps its references and every other vector keeps its value. *)
Theorem intersectsRay_frame (tmp : loc) (ray : Ray) (out : option loc) (m : Mem) :
  let m' := (intersectsRay tmp ray out m).1 in
  let r := (intersectsRay tmp ray out m).2 in
  writes m' = writes m ++ tmp :: (if r then mjoin (replicate 3 (option_list out)) else [])
  ∧ this m' = this m
  ∧ (∀ l, l ≠ tmp → out ≠ Some l → vecs m' !! l = vecs m !! l)
  ∧ (out ≠ Some tmp ∨ r = false →
     deref m' tmp = Vec3.sub (deref m (point (this m))) (deref m (origin ray))).
Proof.
  destruct (intersectsRay_eq tmp ray out m) as [t ->]. cbn zeta.
  destruct (PrimFloat.leb 0 t); destruct out as [p|]; cbn.
  - repeat apply conj.
    + by rewrite <- !app_assoc.
    + done.
    + intros l Hl Hp. rewrite !lookup_insert_ne by congruence. done.
    + intros [Hp|Hp]; [|done]. unfold deref at 1. cbn.
      rewrite !lookup_insert_ne by congruence. by rewrite lookup_insert_eq.
  - repeat apply conj; try done.
    + intros l Hl _. by rewrite lookup_insert_ne.
    + intros _. unfold deref at 1. cbn. by rewrite lookup_insert_eq.
  - repeat apply conj; try done.
    + intros l Hl _. by rewrite lookup_insert_ne.
    + intros _. unfold deref at 1. cbn. by rewrite lookup_insert_eq.
  - repeat apply conj; try done.
    + intros l Hl _. by rewrite lookup_insert_ne.
    + intros _. unfold deref at 1. cbn. by rewrite lookup_insert_eq.
Qed.

Lemma deref_store_eq p v m : deref (store p v m) p = v.
Proof. unfold deref, store. cbn. by rewrite lookup_insert_eq. Qed.

Lemma deref_store_ne p q v m : p ≠ q → deref (store p v m) q = deref m q.
Proof. intros H. unfold deref, store. cbn. by rewrite lookup_insert_ne. Qed.

(** When the temporary is neither the plane's normal nor the ray's
    direction, [t] is the ray parameter of the memory before the call. *)
Lemma intersectsRay_result (tmp : loc) (ray : Ray) (out : option loc) (m : Mem) :
  tmp ≠ normal (this m) → tmp ≠ direction ray →
  intersectsRay tmp ray out m =
    let m1 := Vec3_sub2 tmp (point (this m)) (origin ray) m in
    let t := ray_parameter ray m in
    (match PrimFloat.leb 0 t, out with
     | true, Some p =>
         Vec3_add p (origin ray) (Vec3_mulScalar p t (Vec3_copy p (direction ray) m1))
     | _, _ => m1
     end,
     PrimFloat.leb 0 t).
Proof.
  intros Hn Hd. unfold intersectsRay, ray_parameter. cbn zeta.
  set (m1 := Vec3_sub2 tmp (point (this m)) (origin ray) m).
  assert (H1 : deref m1 tmp = Vec3.sub (deref m (point (this m))) (deref m (origin ray)))
    by apply deref_store_eq.
  assert (H2 : deref m1 (normal (this m1)) = deref m (normal (this m)))
    by by apply deref_store_ne.
  assert (H3 : deref m1 (direction ray) = deref m (direction ray))
    by by apply deref_store_ne.
  by rewrite H1, H2, H3.
Qed.

(** X5.  The point [intersectsRay] reports.  With the temporary private
    to the module, the call returns [t >= 0] and on true stores
    [direction * t + origin] in the out-parameter, also when the
    out-parameter is the ray's direction, unless the out-parameter is
    the ray's own origin vector: then the origin is overwritten before
    it is added and the result is [direction * t + direction * t]. *)
Theorem intersectsRay_aliased_point (tmp : loc) (ray : Ray) (p : loc) (m : Mem) :
  tmp ≠ normal (this m) → tmp ≠ direction ray → tmp ≠ origin ray → tmp ≠ p →
  let t := ray_parameter ray m in
  let dir := deref m (direction ray) in
  let m' := (intersectsRay tmp ray (Some p) m).1 in
  (intersectsRay tmp ray (Some p) m).2 = PrimFloat.leb 0 t
  ∧ (PrimFloat.leb 0 t = true →
     (p ≠ origin ray →
      deref m' p = Vec3.add (Vec3.mulScalar dir t) (deref m (origin ray)))
     ∧ (p = origin ray →
        deref m' p = Vec3.add (Vec3.mulScalar dir t) (Vec3.mulScalar dir t))).
Proof.
  intros Hn Hd Ho Hp. cbn zeta.
  rewrite (intersectsRay_result tmp ray (Some p) m Hn Hd). cbn zeta.
  split; [done|]. intros ->. cbn [fst].
  set (m1 := Vec3_sub2 tmp (point (this m)) (origin ray) m).
  assert (Hdir : deref m1 (direction ray) = deref m (direction ray))
    by by apply deref_store_ne.
  assert (Hori : deref m1 (origin ray) = deref m (origin ray))
    by by apply deref_store_ne.
  unfold Vec3_add, Vec3_mulScalar, Vec3_copy.
  rewrite !deref_store_eq. split.
  - intros Hpo. rewrite !deref_store_ne by done. by rewrite Hdir, Hori.
  - intros ->. rewrite !deref_store_eq. by rewrite Hdir.
Qed.

Lemma intersectsRay_aliased_point_witness :
  (intersectsRay 7 {| origin := 2; direction := 3 |} (Some 2) sample_ray).2 = true
  ∧ deref (intersectsRay 7 {| origin := 2; direction := 3 |} (Some 2) sample_ray).1 2
    = Vec3.new 0 0 4
  ∧ deref (intersectsRay 7 {| origin := 2; direction := 3 |} (Some 4) sample_ray).1 4
    = Vec3.new 0 0 0.
Proof.
  destruct (intersectsRay_aliased_point 7 {| origin := 2; direction := 3 |} 2 sample_ray)
    as [H1 H2]; try discriminate.
  destruct (intersectsRay_aliased_point 7 {| origin := 2; direction := 3 |} 4 sample_ray)
    as [_ H3]; try discriminate.
  cbn zeta in *.
  split; [ rewrite H1; vm_compute; reflexivity | ].
  split.
  - destruct H2 as [_ H2]; [ vm_compute; reflexivity | ].
    rewrite (H2 eq_refl). vm_compute. reflexivity.
  - destruct H3 as [H3 _]; [ vm_compute; reflexivity | ].
    rewrite H3 by discriminate. vm_compute. reflexivity.
Defined.

(** X6.  A ray parallel to the plane.  When [normal.dot(direction)] is
    the positive zero, the call returns true exactly when
    [normal.dot(point - origin)] is positive ([t] is then +Infinity, and
    a supplied out-parameter receives infinite or NaN coordinates); when
    it is the negative zero, exactly when that term is negative.  A ray
    that lies in the plane gives NaN and false. *)
Theorem intersectsRay_parallel_ray (tmp : loc) (ray : Ray) (out : option loc) (m : Mem) :
  tmp ≠ normal (this m) → tmp ≠ direction ray →
  let n := deref m (normal (this m)) in
  let num := Vec3.dot n (Vec3.sub (deref m (point (this m))) (deref m (origin ray))) in
  let den := Vec3.dot n (deref m (direction ray)) in
  (den = 0%float → (intersectsRay tmp ray out m).2 = PrimFloat.ltb 0 num)
  ∧ (den = (-0)%float → (intersectsRay tmp ray out m).2 = PrimFloat.ltb num 0).
Proof.
  intros Hn Hd. cbn zeta.
  rewrite (intersectsRay_result tmp ray out m Hn Hd). cbn zeta. cbn [snd].
  unfold ray_parameter.
  split; intros ->;
    rewrite FloatAxioms.leb_spec, FloatAxioms.div_spec, FloatAxioms.ltb_spec;
    [ change (Prim2SF 0) with (S754_zero false)
    | change (Prim2SF 0) with (S754_zero false);
      change (Prim2SF (-0)) with (S754_zero true) ];
    destruct (Prim2SF _) as [s|s| |s mm e]; try destruct s; reflexivity.
Qed.

Lemma intersectsRay_parallel_ray_witness :
  (intersectsRay 7 {| origin := 2; direction := 0 |} None sample_ray).2 = true.
Proof.
  destruct (intersectsRay_parallel_ray 7 {| origin := 2; direction := 0 |} None sample_ray)
    as [H _]; try discriminate.
  cbn zeta in H. rewrite H by (vm_compute; reflexivity).
  vm_compute. reflexivity.
Defined.

End PlaneEdgeCases.

(* ===================================================================== *)
(** * Further properties of the audio-source component *)
(* ===================================================================== *)

Section ChannelController.

Import AudioSource.

Ltac state_cbv :=
  cbv beta iota zeta delta
    [controller_update set_params set_sources set_currentSource set_channel set_registry
     set_add_listeners set_objects set_batches set_next_channel set_backend
     set_loads set_completions set_assets set_entity_enabled
     log_backend registry_load Channel_set_flags
     Channel_pause Channel_unpause
     params enabled assets sources currentSource channel entity_enabled
     entity_position initialized registry add_listeners objects batches
     next_channel backend loads completions
     ch_id ch_3d ch_sound paused suspended].

(** ** play, pause, unpause, stop *)

(** X7.  A successful [play].  With the component and its entity enabled
    and an entry for the name in the source map, [play(name)] stops the
    live channel if there is one, then creates exactly one channel, in
    the mode of the [3d] flag, for the resource of the entry, not paused;
    the name becomes the current source and the source map is kept. *)
Theorem play_starts_channel (name : option string) (r : Resource) (s : State) :
  enabled s = true → entity_enabled s = true →
  SourceMap s !! property_key name = Some r →
  channel (play name s)
    = Some {| ch_id := next_channel s; ch_3d := is3d (params s); ch_sound := r;
              paused := false; suspended := false |}
  ∧ currentSource (play name s) = name
  ∧ backend (play name s) = backend s ++ stop_calls s ++ [play_call r s]
  ∧ next_channel (play name s) = S (next_channel s)
  ∧ SourceMap (play name s) = SourceMap s.
Proof.
  intros He Hee Hr. rewrite (play_found name r s He Hee Hr), stop_eq.
  repeat apply conj; try done.
  cbn. unfold play_call. cbn. by rewrite <- app_assoc.
Qed.

Lemma play_starts_channel_witness :
  channel (play (Some "b") (stop playing_b))
  = Some {| ch_id := 1; ch_3d := false; ch_sound := Sound 7;
            paused := false; suspended := false |}
  ∧ backend (play (Some "b") playing_b)
    = [call_playSound 0 (Sound 7); call_stop 0; call_playSound 1 (Sound 7)].
Proof.
  destruct (play_starts_channel (Some "b") (Sound 7) (stop playing_b)) as (H1 & _);
    try (vm_compute; reflexivity).
  destruct (play_starts_channel (Some "b") (Sound 7) playing_b) as (_ & _ & H3 & _);
    try (vm_compute; reflexivity).
  split; [ rewrite H1 | rewrite H3 ]; vm_compute; reflexivity.
Defined.

(** X8.  [unpause] and [stop] are idempotent, [pause] is not.  A second
    [unpause] or [stop] does nothing; [unpause] on a channel that is not
    paused and every one of the three without a channel do nothing; a
    second [pause] calls the backend again. *)
Theorem unpause_stop_idempotent (s : State) :
  unpause (unpause s) = unpause s
  ∧ stop (stop s) = stop s
  ∧ (∀ c, channel s = Some c → paused c = false → unpause s = s)
  ∧ (channel s = None → unpause s = s ∧ pause s = s ∧ stop s = s)
  ∧ (∀ c, channel s = Some c →
       backend (pause (pause s)) = backend s ++ [call_pause (ch_id c); call_pause (ch_id c)]).
Proof.
  repeat apply conj.
  - unfold unpause. destruct (channel s) as [c|] eqn:Hc; [|by rewrite Hc].
    destruct (paused c) eqn:Hp; cbn; [done|]. by rewrite Hc, Hp.
  - unfold stop. destruct (channel s) as [c|] eqn:Hc; cbn; [done|]. by rewrite Hc.
  - intros c Hc Hp. unfold unpause. by rewrite Hc, Hp.
  - intros Hc. unfold unpause, pause, stop. by rewrite Hc.
  - intros c Hc. unfold pause. rewrite Hc. cbn. by rewrite <- app_assoc.
Qed.

(** X9.  [pause] then [unpause] on a playing channel is a round trip:
    the component is as before, the channel included, and the backend
    has seen one pause and one unpause of that channel. *)
Theorem pause_unpause_round_trip (s : State) (c : Channel) :
  channel s = Some c → paused c = false →
  unpause (pause s) = set_backend (backend s ++ [call_pause (ch_id c); call_unpause (ch_id c)]) s.
Proof.
  intros Hc Hp. unfold pause. rewrite Hc. unfold unpause. cbn.
  destruct s; destruct c; cbn in *. subst. state_cbv. by rewrite <- app_assoc.
Qed.

Lemma pause_unpause_round_trip_witness :
  channel (unpause (pause playing_b)) = channel playing_b
  ∧ backend (unpause (pause playing_b))
    = [call_playSound 0 (Sound 7); call_pause 0; call_unpause 0].
Proof.
  rewrite (pause_unpause_round_trip playing_b
             {| ch_id := 0; ch_3d := false; ch_sound := Sound 7;
                paused := false; suspended := false |});
    [ | vm_compute; reflexivity | reflexivity ].
  split; vm_compute; reflexivity.
Defined.

(** ** The parameter setters *)

Ltac setter_unfold :=
  cbv beta delta [setLoop setVolume setPitch setMinDistance setMaxDistance
                  setRollOffFactor setDistanceModel
                  onSetLoop onSetVolume onSetPitch onSetMinDistance onSetMaxDistance
                  onSetRollOffFactor onSetDistanceModel channel3d].

(** X10.  A setter given a value that differs from the stored one (by
    [!==]) makes exactly one call on the live channel, with the new
    value; the four distance parameters do so when the channel is
    positional. *)
Theorem setter_new_value_reaches_the_channel (s : State) (c : Channel) :
  channel s = Some c →
  (∀ v, Bool.eqb (loop (params s)) v = false →
        backend (setLoop v s) = backend s ++ [call_setLoop (ch_id c) v])
  ∧ (∀ v, PrimFloat.eqb (volume (params s)) v = false →
        backend (setVolume v s) = backend s ++ [call_setVolume (ch_id c) v])
  ∧ (∀ v, PrimFloat.eqb (pitch (params s)) v = false →
        backend (setPitch v s) = backend s ++ [call_setPitch (ch_id c) v])
  ∧ (ch_3d c = true →
     (∀ v, PrimFloat.eqb (minDistance (params s)) v = false →
        backend (setMinDistance v s) = backend s ++ [call_setMinDistance (ch_id c) v])
     ∧ (∀ v, PrimFloat.eqb (maxDistance (params s)) v = false →
        backend (setMaxDistance v s) = backend s ++ [call_setMaxDistance (ch_id c) v])
     ∧ (∀ v, PrimFloat.eqb (rollOffFactor (params s)) v = false →
        backend (setRollOffFactor v s) = backend s ++ [call_setRollOffFactor (ch_id c) v])
     ∧ (∀ v, String.eqb (distanceModel (params s)) v = false →
        backend (setDistanceModel v s) = backend s ++ [call_setDistanceModel (ch_id c) v])).
Proof.
  intros Hc.
  assert (Hc' : ∀ p, channel (set_params p s) = Some c) by (intros p; exact Hc).
  split; [|split; [|split]].
  1-3: intros v H; setter_unfold; rewrite H, Hc'; reflexivity.
  intros H3. repeat apply conj;
    intros v H; setter_unfold; rewrite H, Hc', H3; reflexivity.
Qed.

Lemma setter_new_value_witness :
  backend (setVolume 0.5 playing3d) = [call_setVolume 0 0.5]
  ∧ backend (setMaxDistance 50 playing3d) = [call_setMaxDistance 0 50].
Proof.
  destruct (setter_new_value_reaches_the_channel playing3d
              {| ch_id := 0; ch_3d := true; ch_sound := Sound 7;
                 paused := false; suspended := false |} eq_refl)
    as (_ & Hv & _ & H3).
  destruct (H3 eq_refl) as (_ & Hmax & _).
  split; [ rewrite Hv | rewrite Hmax ]; reflexivity.
Defined.

(** X11.  Without a positional channel (no channel, or a channel made by
    [playSound]) the four distance setters store the value and make no
    backend call, whatever the value. *)
Theorem distance_setters_skip_flat_channel (s : State) :
  channel3d s = None →
  ∀ v w,
    backend (setMinDistance v s) = backend s
    ∧ backend (setMaxDistance v s) = backend s
    ∧ backend (setRollOffFactor v s) = backend s
    ∧ backend (setDistanceModel w s) = backend s
    ∧ minDistance (params (setMinDistance v s)) = v
    ∧ maxDistance (params (setMaxDistance v s)) = v
    ∧ rollOffFactor (params (setRollOffFactor v s)) = v
    ∧ distanceModel (params (setDistanceModel w s)) = w
    ∧ channel (setMinDistance v s) = channel s
    ∧ channel (setMaxDistance v s) = channel s
    ∧ channel (setRollOffFactor v s) = channel s
    ∧ channel (setDistanceModel w s) = channel s.
Proof.
  intros H3 v w.
  assert (H3' : ∀ p, channel3d (set_params p s) = None) by (intros p; exact H3).
  unfold setMinDistance, setMaxDistance, setRollOffFactor, setDistanceModel,
    onSetMinDistance, onSetMaxDistance, onSetRollOffFactor, onSetDistanceModel.
  rewrite !H3'.
  repeat apply conj;
    repeat match goal with |- context [if ?b then _ else _] => destruct b end;
    reflexivity.
Qed.

Lemma distance_setters_skip_witness :
  backend (setMaxDistance 50 playing_b) = backend playing_b
  ∧ maxDistance (params (setMaxDistance 50 playing_b)) = 50%float.
Proof.
  destruct (distance_setters_skip_flat_channel playing_b) with (v := 50%float) (w := "")
    as (_ & H2 & _ & _ & _ & H6 & _); [ vm_compute; reflexivity | ].
  split; [ exact H2 | exact H6 ].
Defined.

(** ** The [3d] flag *)

(** X12.  Setting the [3d] flag only stores it when the value is the
    stored one, when the system is not initialized, or when there is no
    current source (null or the empty name): the channel, if any, stays
    in its old mode. *)
Theorem setPositional_only_stores_the_flag (v : bool) (s : State) :
  v = is3d (params s) ∨ initialized s = false ∨ truthy (currentSource s) = false →
  setPositional v s = set_params (Params_set_is3d v (params s)) s.
Proof.
  intros H. unfold setPositional, onSet3d.
  destruct (negb (Bool.eqb (is3d (params s)) v)) eqn:Hne; [|done].
  change (initialized (set_params _ s)) with (initialized s).
  change (currentSource (set_params _ s)) with (currentSource s).
  destruct H as [-> | [-> | ->]].
  - by rewrite Bool.eqb_reflx in Hne.
  - done.
  - by rewrite andb_false_r.
Qed.

Lemma setPositional_only_stores_the_flag_witness :
  channel (setPositional true (component registry_abc)) = None
  ∧ backend (setPositional true (component registry_abc)) = []
  ∧ is3d (params (setPositional true (component registry_abc))) = true.
Proof.
  rewrite (setPositional_only_stores_the_flag true (component registry_abc));
    [ | right; right; reflexivity ].
  repeat apply conj; reflexivity.
Defined.



(** ** The [change] event of an asset *)





(** X15.  A change of the resource of the current source while a channel
    is live, on an enabled component: the channel is stopped and a new
    one plays the new resource; it is paused again if the old one was.
    The [suspended] flag of the old channel is not carried over. *)
Theorem asset_change_restarts_the_current_source
    (id : string) (a : Asset) (v : Resource) (c : Channel) (s : State) :
  registry s !! id = Some a →
  currentSource s = Some (name a) → channel s = Some c →
  enabled s = true → entity_enabled s = true →
  channel (onAssetChanged id "resource" v s)
    = Some {| ch_id := next_channel s; ch_3d := is3d (params s); ch_sound := v;
              paused := paused c; suspended := false |}
  ∧ backend (onAssetChanged id "resource" v s)
    = backend s ++ [call_stop (ch_id c); play_call v s]
        ++ (if paused c then [call_pause (next_channel s)] else []).
Proof.
  intros Ha Hcur Hc He Hee. unfold onAssetChanged. rewrite Ha.
  cbn [String.eqb Ascii.eqb Bool.eqb]. cbn zeta.
  set (s1 := dict_set _ _ _ _).
  change (currentSource s1) with (currentSource s).
  change (channel s1) with (channel s).
  rewrite Hcur, bool_decide_eq_true_2, Hc by done.
  assert (Hr : SourceMap s1 !! property_key (Some (name a)) = Some v).
  { subst s1. rewrite SourceMap_dict_set. apply lookup_insert_eq. }
  rewrite (play_found (Some (name a)) v s1 He Hee Hr), stop_eq.
  unfold stop_calls, new_channel, play_call.
  change (channel s1) with (channel s). rewrite Hc.
  destruct (paused c) eqn:Hp; unfold pause; cbn; rewrite <- !app_assoc; by rewrite ?app_nil_r.
Qed.

Lemma asset_change_restarts_witness :
  channel (onAssetChanged "b" "resource" (Sound 9) (pause playing_b))
  = Some {| ch_id := 1; ch_3d := false; ch_sound := Sound 9;
            paused := true; suspended := false |}
  ∧ backend (onAssetChanged "b" "resource" (Sound 9) (pause playing_b))
    = [call_playSound 0 (Sound 7); call_pause 0; call_stop 0;
       call_playSound 1 (Sound 9); call_pause 1].
Proof.
  destruct (asset_change_restarts_the_current_source "b"
              {| name := "b"; resource := Some (Sound 7);
                 listeners := [change_onAssetChanged; remove_onAssetRemoved; error__error 0];
                 ready_callbacks := [] |}
              (Sound 9)
              {| ch_id := 0; ch_3d := false; ch_sound := Sound 7;
                 paused := true; suspended := false |}
              (pause playing_b)) as [H1 H2]; try (vm_compute; reflexivity).
  split; [ rewrite H1 | rewrite H2 ]; vm_compute; reflexivity.
Defined.

(** ** onEnable *)

Lemma load_loop_requests (l : list string) : ∀ s,
  foldl load_if_unloaded s l
  = set_loads (loads s ++ filter (λ id, needs_load (registry s) id = true) l) s.
Proof.
  induction l as [|id l IH]; intros s; cbn [foldl].
  - rewrite filter_nil, app_nil_r. by destruct s.
  - rewrite IH. unfold load_if_unloaded, registry_load.
    destruct (registry s !! id) as [a|] eqn:Ha.
    + destruct (resource a) eqn:Hr.
      * rewrite filter_cons_False by (unfold needs_load; by rewrite Ha, Hr). done.
      * rewrite filter_cons_True by (unfold needs_load; by rewrite Ha, Hr).
        destruct s. state_cbv. by rewrite <- app_assoc.
    + rewrite filter_cons_False by (unfold needs_load; by rewrite Ha). done.
Qed.

(** [onEnable] on an initialized, activated component without a channel
    plays the current source. *)
Lemma onEnable_autoplay (s : State) (r : Resource) :
  initialized s = true → activate (params s) = true → channel s = None →
  enabled s = true → entity_enabled s = true →
  SourceMap s !! property_key (currentSource s) = Some r →
  channel (onEnable s) = Some (new_channel r s)
  ∧ backend (onEnable s) = backend s ++ [play_call r s]
  ∧ currentSource (onEnable s) = currentSource s.
Proof.
  intros Hi Ha Hc He Hee Hr. unfold onEnable. rewrite load_loop_requests.
  set (s1 := set_loads _ s).
  change (initialized s1) with (initialized s). rewrite Hi.
  change (params s1) with (params s). change (channel s1) with (channel s).
  change (currentSource s1) with (currentSource s).
  rewrite Ha, Hc. cbn [andb negb].
  rewrite bool_decide_eq_false_2 by (intros [? ?]; done). cbn [negb].
  rewrite (play_found (currentSource s) r s1 He Hee Hr), stop_eq.
  unfold stop_calls, new_channel, play_call. change (channel s1) with (channel s).
  rewrite Hc. cbn. by rewrite app_nil_r.
Qed.

(** [onEnable] leaves a channel that is not paused alone. *)
Lemma onEnable_live_channel (s : State) (c : Channel) :
  channel s = Some c → paused c = false →
  channel (onEnable s) = Some c ∧ backend (onEnable s) = backend s.
Proof.
  intros Hc Hp. unfold onEnable. rewrite load_loop_requests.
  set (s1 := set_loads _ s).
  change (initialized s1) with (initialized s).
  destruct (initialized s); [|done].
  change (channel s1) with (channel s).
  rewrite Hc, bool_decide_eq_true_2 by by eexists.
  rewrite andb_false_r. unfold unpause. change (channel s1) with (channel s).
  by rewrite Hc, Hp.
Qed.

(** X16.  The load requests of [onEnable]: one for every entry of the
    [assets] list, in order and with repetitions, whose handle is
    registered and has no resource, also for an asset whose load was
    requested before; the registry and the source map are not touched,
    and before the system is initialized nothing else happens. *)
Theorem onEnable_load_requests (s : State) :
  loads (onEnable s)
    = loads s ++ filter (λ id, needs_load (registry s) id = true) (assets s)
  ∧ registry (onEnable s) = registry s
  ∧ SourceMap (onEnable s) = SourceMap s
  ∧ (initialized s = false →
     channel (onEnable s) = channel s ∧ backend (onEnable s) = backend s
     ∧ currentSource (onEnable s) = currentSource s).
Proof.
  unfold onEnable. rewrite load_loop_requests.
  set (s1 := set_loads _ s).
  change (initialized s1) with (initialized s).
  destruct (initialized s).
  - destruct (activate (params s1) && negb (bool_decide (is_Some (channel s1)))).
    + destruct (play_nf (currentSource s1) s1) as (c & cs & nc & bk & -> & _).
      repeat apply conj; done.
    + destruct (unpause_nf s1) as (c & bk & ->). repeat apply conj; done.
  - repeat apply conj; done.
Qed.

(** X17.  What [onEnable] plays once the system is initialized.  With
    [activate] set and no channel it plays the current source, if the
    component and its entity are enabled and the source map has an entry
    for it; without [activate] and without a channel it plays nothing; a
    channel that is live and not paused is left as it is. *)
Theorem onEnable_playback (s : State) :
  initialized s = true →
  (∀ r, activate (params s) = true → channel s = None →
        enabled s = true → entity_enabled s = true →
        SourceMap s !! property_key (currentSource s) = Some r →
        channel (onEnable s) = Some (new_channel r s)
        ∧ backend (onEnable s) = backend s ++ [play_call r s]
        ∧ currentSource (onEnable s) = currentSource s)
  ∧ (activate (params s) = false → channel s = None →
     channel (onEnable s) = None ∧ backend (onEnable s) = backend s)
  ∧ (∀ c, channel s = Some c → paused c = false →
     channel (onEnable s) = Some c ∧ backend (onEnable s) = backend s).
Proof.
  intros Hi. split; [|split].
  - intros r Ha Hc He Hee Hr. by apply onEnable_autoplay.
  - intros Ha Hc. unfold onEnable. rewrite load_loop_requests.
    set (s1 := set_loads _ s).
    change (initialized s1) with (initialized s). rewrite Hi.
    change (params s1) with (params s). rewrite Ha. cbn [andb]. unfold unpause.
    change (channel s1) with (channel s). by rewrite Hc.
  - intros c Hc Hp. by apply onEnable_live_channel.
Qed.

Lemma onEnable_playback_witness :
  channel (onEnable (stop playing_b))
  = Some {| ch_id := 1; ch_3d := false; ch_sound := Sound 7;
            paused := false; suspended := false |}
  ∧ channel (onEnable playing_b) = channel playing_b.
Proof.
  destruct (onEnable_playback (stop playing_b)) as (H1 & _); [ vm_compute; reflexivity | ].
  destruct (onEnable_playback playing_b) as (_ & _ & H3); [ vm_compute; reflexivity | ].
  split.
  - destruct (H1 (Sound 7)) as [H _]; [vm_compute; reflexivity ..|].
    etrans; [exact H | vm_compute; reflexivity].
  - destruct (H3 {| ch_id := 0; ch_3d := false; ch_sound := Sound 7;
                    paused := false; suspended := false |}) as [H _];
      [vm_compute; reflexivity ..|].
    etrans; [exact H | vm_compute; reflexivity].
Defined.

End ChannelController.

Section AssetList.

Import AudioSource.

(** ** What the resolver does to the registry *)

















(** ** [onSetAssets] and the playing channel *)







End AssetList.

Section SettledBatch.

Import AudioSource.

(** ** A batch none of whose assets is still to load *)

Lemma settle_exact b B t :
  batches t !! b = Some B →
  let t1 := decrement b t in
  let t' := if (count b t1 =? 0)%Z then _done b t1 else t1 in
  batches t' !! b = Some (Batch_set_count (b_count B - 1) B)
  ∧ registry t' = registry t ∧ objects t' = objects t
  ∧ add_listeners t' = add_listeners t
  ∧ ((b_count B - 1 ≠ 0)%Z →
     sources t' = sources t ∧ completions t' = completions t
     ∧ currentSource t' = currentSource t ∧ channel t' = channel t
     ∧ backend t' = backend t)
  ∧ ((b_count B - 1 = 0)%Z →
     sources t' = b_sources B ∧ completions t' = completions t ++ [b]
     ∧ currentSource t' = b_currentSource B
     ∧ (truthy (b_currentSource B) = false →
        channel t' = channel t ∧ backend t' = backend t)).
Proof.
  intros HB. cbn zeta.
  assert (H1 : decrement b t
               = set_batches (<[b := Batch_set_count (b_count B - 1) B]> (batches t)) t).
  { unfold decrement, update_batch. by rewrite HB. }
  rewrite H1. set (t1 := set_batches _ t).
  assert (H2 : batches t1 !! b = Some (Batch_set_count (b_count B - 1) B))
    by apply lookup_insert_eq.
  assert (H3 : count b t1 = (b_count B - 1)%Z) by (unfold count; by rewrite H2).
  rewrite H3. destruct (Z.eqb_spec (b_count B - 1) 0) as [Hz|Hz].
  - destruct (_done_nf b _ t1 H2) as (c & nc & bk & ls & Hd).
    split; [by rewrite Hd|]. split; [by rewrite Hd|]. split; [by rewrite Hd|].
    split; [by rewrite Hd|]. split; [done|]. intros _.
    split; [by rewrite Hd|]. split; [by rewrite Hd|]. split; [by rewrite Hd|].
    intros Ht. unfold _done. rewrite H2. cbn zeta.
    change (b_currentSource (Batch_set_count (b_count B - 1) B)) with (b_currentSource B).
    rewrite Ht, andb_false_r. done.
  - split; [exact H2|]. do 3 (split; [done|]). split; [done|]. intros; lia.
Qed.

Lemma same_assets_lookup reg reg' id a :
  same_assets reg reg' → reg !! id = Some a →
  ∃ a', reg' !! id = Some a' ∧ name a' = name a ∧ resource a' = resource a.
Proof.
  intros H Ha. specialize (H id). rewrite Ha in H. cbn in H.
  destruct (reg' !! id) as [a'|]; [|done]. cbn in H.
  exists a'. split; [done|]. by injection H.
Qed.

Lemma same_assets_absent reg reg' id :
  same_assets reg reg' → reg !! id = None → reg' !! id = None.
Proof.
  intros H Ha. specialize (H id). rewrite Ha in H. cbn in H.
  by destruct (reg' !! id).
Qed.

Lemma same_assets_insert reg reg' id a a' :
  same_assets reg reg' → reg' !! id = Some a →
  name a' = name a → resource a' = resource a →
  same_assets reg (<[id := a']> reg').
Proof.
  intros H Ha Hn Hr id'. destruct (decide (id' = id)) as [->|Hne].
  - rewrite lookup_insert_eq. cbn. rewrite Hn, Hr, <- (H id), Ha. done.
  - rewrite lookup_insert_ne by done. apply H.
Qed.

Lemma settled_entry b d reg0 id s B M :
  batches s !! b = Some B → b_sources B = d → objects s !! d = Some M →
  same_assets reg0 (registry s) → needs_load reg0 id = false →
  let s' := forEach_body b s (id, bool_decide (is_Some (reg0 !! id))) in
  let acc := next_entry (name <$> reg0) (b_currentSource B) id in
  batches s' !! b
    = Some {| b_count := b_count B - 1; b_sources := d; b_currentSource := acc |}
  ∧ objects s' !! d = Some (collect reg0 M id)
  ∧ same_assets reg0 (registry s')
  ∧ add_listeners s' = add_listeners s ++ absent reg0 [id]
  ∧ ((b_count B - 1 ≠ 0)%Z →
     sources s' = sources s ∧ completions s' = completions s
     ∧ currentSource s' = currentSource s ∧ channel s' = channel s
     ∧ backend s' = backend s)
  ∧ ((b_count B - 1 = 0)%Z →
     sources s' = d ∧ completions s' = completions s ++ [b]
     ∧ currentSource s' = acc
     ∧ (truthy acc = false → channel s' = channel s ∧ backend s' = backend s)).
Proof.
  intros HB Hd HM Hsame Hnl. cbn zeta.
  unfold next_entry, collect, absent. rewrite lookup_fmap.
  destruct (reg0 !! id) as [a0|] eqn:H0.
  - (* the handle is present and loaded *)
    unfold needs_load in Hnl. rewrite H0 in Hnl.
    destruct (resource a0) as [r|] eqn:Hr0; [|done].
    destruct (same_assets_lookup _ _ _ _ Hsame H0) as (a & Ha & Hn & Hr).
    rewrite Hr0 in Hr.
    rewrite bool_decide_eq_true_2 by by eexists.
    rewrite filter_cons_False by (by rewrite H0). rewrite filter_nil, app_nil_r.
    cbn [fmap option_fmap option_map].
    unfold forEach_body. rewrite Ha. cbn zeta. rewrite Hr.
    unfold update_batch. rewrite HB.
    set (B1 := Batch_set_currentSource (js_or (b_currentSource B) (name a)) B).
    set (a' := Asset_set_listeners _ a).
    set (s2 := set_registry _ _).
    assert (Hreg2 : registry s2 = <[id := a']> (registry s)) by done.
    assert (HB2 : batches s2 !! b = Some B1) by apply lookup_insert_eq.
    unfold Asset_ready. rewrite Hreg2, lookup_insert_eq.
    change (resource a') with (resource a). rewrite Hr.
    change (name a') with (name a).
    cbn [call_ready]. unfold ready_callback. rewrite HB2. cbn zeta.
    change (b_sources B1) with (b_sources B). rewrite Hd.
    set (s4 := dict_set d (name a) r s2).
    assert (HB4 : batches s4 !! b = Some B1) by exact HB2.
    destruct (settle_exact b B1 s4 HB4) as (E1 & E2 & E3 & E4 & E5 & E6).
    cbn zeta in E1, E2, E3, E4, E5, E6.
    change (b_count B1) with (b_count B) in *.
    change (b_currentSource B1) with (js_or (b_currentSource B) (name a)) in *.
    change (b_sources B1) with (b_sources B) in *.
    rewrite Hn in *.
    split. { rewrite E1. unfold Batch_set_count, B1, Batch_set_currentSource. cbn.
             by rewrite Hd, Hn. }
    split. { rewrite E3. unfold s4, dict_set, dict. cbn [objects set_objects].
             change (objects s2) with (objects s). rewrite HM. cbn [default].
             unfold Datatypes.id. by rewrite lookup_insert_eq, Hn. }
    split. { rewrite E2. change (registry s4) with (registry s2). rewrite Hreg2.
             by apply (same_assets_insert _ _ _ a). }
    split. { by rewrite E4. }
    split. { intros Hz. destruct (E5 Hz) as (-> & -> & -> & -> & ->). done. }
    intros Hz. destruct (E6 Hz) as (F1 & F2 & F3 & F4).
    rewrite F1, F2, F3, Hd. repeat split; try done; by apply F4.
  - (* the handle is absent *)
    rewrite (bool_decide_eq_false_2 (is_Some None)) by (intros [? ?]; done).
    rewrite filter_cons_True by done. rewrite filter_nil.
    cbn [fmap option_fmap option_map].
    unfold forEach_body.
    destruct (settle_exact b B s HB) as (E1 & E2 & E3 & E4 & E5 & E6).
    cbn zeta in E1, E2, E3, E4, E5, E6. cbn zeta.
    set (t := if (count b (decrement b s) =? 0)%Z then _ else _) in *.
    change (batches (set_add_listeners (add_listeners t ++ [id]) t)) with (batches t).
    change (objects (set_add_listeners (add_listeners t ++ [id]) t)) with (objects t).
    change (registry (set_add_listeners (add_listeners t ++ [id]) t)) with (registry t).
    change (add_listeners (set_add_listeners (add_listeners t ++ [id]) t))
      with (add_listeners t ++ [id]).
    change (sources (set_add_listeners (add_listeners t ++ [id]) t)) with (sources t).
    change (completions (set_add_listeners (add_listeners t ++ [id]) t)) with (completions t).
    change (currentSource (set_add_listeners (add_listeners t ++ [id]) t))
      with (currentSource t).
    change (channel (set_add_listeners (add_listeners t ++ [id]) t)) with (channel t).
    change (backend (set_add_listeners (add_listeners t ++ [id]) t)) with (backend t).
    split. { rewrite E1. unfold Batch_set_count. by rewrite Hd. }
    split. { by rewrite E3. }
    split. { by rewrite E2. }
    split. { by rewrite E4. }
    split. { exact E5. }
    intros Hz. destruct (E6 Hz) as (F1 & F2 & F3 & F4).
    rewrite F1, F2, F3, Hd. done.
Qed.

Lemma settled_loop b d reg0 (l : list AssetId) : ∀ s B M,
  l ≠ [] → batches s !! b = Some B → b_count B = Z.of_nat (length l) →
  b_sources B = d → objects s !! d = Some M → same_assets reg0 (registry s) →
  (∀ id, id ∈ l → needs_load reg0 id = false) →
  let s' := foldl (forEach_body b) s
              (map (λ id, (id, bool_decide (is_Some (reg0 !! id)))) l) in
  let acc := foldl (next_entry (name <$> reg0)) (b_currentSource B) l in
  sources s' = d ∧ objects s' !! d = Some (foldl (collect reg0) M l)
  ∧ completions s' = completions s ++ [b] ∧ currentSource s' = acc
  ∧ add_listeners s' = add_listeners s ++ absent reg0 l
  ∧ same_assets reg0 (registry s')
  ∧ (truthy acc = false → channel s' = channel s ∧ backend s' = backend s).
Proof.
  induction l as [|id l IH]; intros s B M Hne HB Hc Hd HM Hsame Hall; [done|].
  assert (Hid : needs_load reg0 id = false) by (apply Hall, list_elem_of_here).
  destruct (settled_entry b d reg0 id s B M HB Hd HM Hsame Hid)
    as (E1 & E2 & E3 & E4 & E5 & E6).
  cbn zeta in E1, E2, E3, E4, E5, E6.
  cbn [map foldl]. cbn zeta.
  set (s1 := forEach_body b s _) in *.
  destruct l as [|id2 l].
  - cbn [map foldl]. cbn in Hc.
    destruct E6 as (F1 & F2 & F3 & F4); [lia|].
    repeat apply conj; done.
  - assert (Hz : (b_count B - 1 ≠ 0)%Z) by (cbn [length] in Hc; lia).
    destruct (E5 Hz) as (F1 & F2 & F3 & F4 & F5).
    assert (Hc' : b_count {| b_count := b_count B - 1; b_sources := d;
                             b_currentSource := next_entry (name <$> reg0)
                                                  (b_currentSource B) id |}
                  = Z.of_nat (length (id2 :: l)))
      by (cbn [b_count]; cbn [length] in *; lia).
    assert (Hall' : ∀ id', id' ∈ id2 :: l → needs_load reg0 id' = false)
      by (intros; by apply Hall, list_elem_of_further).
    destruct (IH s1 _ (collect reg0 M id) ltac:(done) E1 Hc' eq_refl E2 E3 Hall')
      as (G1 & G2 & G3 & G4 & G5 & G6 & G7).
    cbn zeta in G1, G2, G3, G4, G5, G6, G7. cbn [b_currentSource] in G4, G7.
    split; [exact G1|]. split; [exact G2|].
    split; [by rewrite G3, F2|]. split; [exact G4|].
    split. { rewrite G5, E4. unfold absent. rewrite <- app_assoc.
             by rewrite <- filter_app. }
    split; [exact G6|].
    intros Ht. destruct (G7 Ht) as [-> ->]. done.
Qed.



Lemma unregistered_fold {A} (f : A → AssetId → A) (reg : gmap AssetId Asset)
    (l : list AssetId) :
  (∀ x id, reg !! id = None → f x id = x) →
  (∀ id, id ∈ l → reg !! id = None) → ∀ x, foldl f x l = x.
Proof.
  intros Hf. induction l as [|id l IH]; intros Hall x; [done|].
  cbn [foldl]. rewrite Hf by apply Hall, list_elem_of_here.
  apply IH. intros. by apply Hall, list_elem_of_further.
Qed.

(** X21.  A batch of unregistered identifiers empties the component.
    When no identifier of a non-empty list is registered, the call
    finalizes at once with an empty source map and no current source,
    while the channel is not touched: what was playing keeps playing,
    from a source the component no longer knows.  Every identifier gets
    an ['add:'] listener. *)
Theorem loadAudioSourceAssets_unregistered_ids (ids : list AssetId) (s : State) :
  ids ≠ [] → (∀ id, id ∈ ids → registry s !! id = None) →
  let s' := loadAudioSourceAssets ids s in
  completions s' = completions s ++ [new_batch s]
  ∧ SourceMap s' = ∅ ∧ currentSource s' = None
  ∧ channel s' = channel s ∧ backend s' = backend s
  ∧ add_listeners s' = add_listeners s ++ ids.
Proof.
  intros Hne Hall. cbn zeta. unfold loadAudioSourceAssets. cbn zeta.
  set (s0 := set_batches _ _).
  set (B0 := {| b_count := Z.of_nat (length (map (λ id, (id, bool_decide (is_Some (registry s !! id)))) ids));
                b_sources := new_dict s; b_currentSource := None |}) in *.
  assert (HB0 : batches s0 !! new_batch s = Some B0) by apply lookup_insert_eq.
  assert (Hc0 : b_count B0 = Z.of_nat (length ids)) by (cbn [b_count B0]; by rewrite length_map).
  assert (HM0 : objects s0 !! new_dict s = Some ∅) by apply lookup_insert_eq.
  assert (Hs0 : same_assets (registry s) (registry s0)) by done.
  assert (Hnl : ∀ id, id ∈ ids → needs_load (registry s) id = false).
  { intros id Hin. unfold needs_load. by rewrite (Hall id Hin). }
  destruct (settled_loop (new_batch s) (new_dict s) (registry s) ids s0 B0 ∅
              Hne HB0 Hc0 eq_refl HM0 Hs0 Hnl)
    as (G1 & G2 & G3 & G4 & G5 & G6 & G7).
  cbn zeta in G1, G2, G3, G4, G5, G6, G7. cbn [b_currentSource B0] in G4, G7.
  assert (Hacc : foldl (next_entry (name <$> registry s)) None ids = None).
  { apply (unregistered_fold _ (registry s)); [|done].
    intros x id Hid. unfold next_entry. by rewrite lookup_fmap, Hid. }
  assert (Hcol : foldl (collect (registry s)) ∅ ids = ∅).
  { apply (unregistered_fold _ (registry s)); [|done].
    intros x id Hid. unfold collect. by rewrite Hid. }
  rewrite Hacc in G4, G7. rewrite Hcol in G2.
  destruct (G7 eq_refl) as [G8 G9].
  split; [exact G3|]. split; [unfold SourceMap, dict; by rewrite G1, G2|].
  split; [exact G4|]. split; [exact G8|]. split; [exact G9|].
  rewrite G5. f_equal. unfold absent.
  clear -Hall. induction ids as [|id l IH]; [done|].
  rewrite filter_cons_True by apply Hall, list_elem_of_here.
  f_equal. apply IH. intros. by apply Hall, list_elem_of_further.
Qed.

Lemma loadAudioSourceAssets_unregistered_ids_witness :
  let s' := loadAudioSourceAssets ["zz"] playing_b in
  SourceMap playing_b = {[ "b" := Sound 7 ]} ∧ SourceMap s' = ∅
  ∧ currentSource s' = None ∧ channel s' = channel playing_b
  ∧ is_Some (channel playing_b).
Proof.
  cbv zeta.
  assert (Hne : ["zz"] ≠ []) by discriminate.
  assert (Hall : ∀ id, id ∈ ["zz"] → registry playing_b !! id = None).
  { intros id Hin. apply list_elem_of_singleton in Hin as ->. vm_compute. reflexivity. }
  pose proof (loadAudioSourceAssets_unregistered_ids _ _ Hne Hall) as H.
  cbv zeta in H. destruct H as (_ & H2 & H3 & H4 & _).
  split; [vm_compute; reflexivity|].
  split; [exact H2|]. split; [exact H3|]. split; [exact H4|].
  vm_compute. eexists. reflexivity.
Defined.

End SettledBatch.

Section BatchResolution.

Import AudioSource.

(** ** A batch whose assets all load *)









End BatchResolution.

Section LateAssets.

Import AudioSource.

(** ** An asset that joins the registry after its batch *)








End LateAssets.

Section ChannelDiscipline.

Import AudioSource.

(** ** The component and the channels of the backend *)

Lemma live_channels_snoc bk c :
  live_channels (bk ++ [c]) = backend_step (live_channels bk) c.
Proof. unfold live_channels. by rewrite foldl_app. Qed.

Lemma discipline_frame s s' :
  channel s' = channel s → backend s' = backend s →
  channel_discipline s → channel_discipline s'.
Proof. unfold channel_discipline. by intros -> ->. Qed.

(** A call on the live channel that neither creates nor stops one. *)
Lemma discipline_call (k : BackendCall) c c' s :
  channel s = Some c → ch_id c' = ch_id c → call_channel k = ch_id c →
  creates_channel k = false → (∀ n, k ≠ call_stop n) →
  channel_discipline s →
  channel_discipline (set_channel (Some c') (log_backend k s)).
Proof.
  unfold channel_discipline. intros Hc Hid Hk Hcr Hst H.
  cbn [backend channel set_channel log_backend set_backend].
  rewrite live_channels_snoc, H, Hc.
  unfold backend_step. rewrite Hcr, Hk, bool_decide_eq_true_2 by apply list_elem_of_here.
  rewrite Hid. destruct k; try done. by destruct (Hst ch).
Qed.

Lemma discipline_log (k : BackendCall) c s :
  channel s = Some c → call_channel k = ch_id c →
  creates_channel k = false → (∀ n, k ≠ call_stop n) →
  channel_discipline s → channel_discipline (log_backend k s).
Proof.
  intros Hc Hk Hcr Hst H.
  apply (discipline_frame (set_channel (Some c) (log_backend k s))).
  - by cbn.
  - done.
  - by apply (discipline_call k c c s).
Qed.

Lemma discipline_stop s : channel_discipline s → channel_discipline (stop s).
Proof.
  unfold channel_discipline, stop. intros H.
  destruct (channel s) as [c|] eqn:Hc; [|by rewrite Hc].
  cbn [backend channel set_channel log_backend set_backend].
  rewrite live_channels_snoc, H.
  cbn [backend_step creates_channel call_channel].
  rewrite bool_decide_eq_true_2 by apply list_elem_of_here.
  rewrite filter_cons_False by (intros ?; done). done.
Qed.

Lemma channel_stop s : channel (stop s) = None.
Proof. by rewrite stop_eq. Qed.

Lemma discipline_play name s : channel_discipline s → channel_discipline (play name s).
Proof.
  intros H. destruct (enabled s && entity_enabled s) eqn:Hgate.
  - apply andb_true_iff in Hgate as [He Hee].
    destruct (get_property (SourceMap s) (property_key name)) as [r|] eqn:Hr.
    + rewrite (play_read name r s He Hee Hr).
      apply discipline_stop in H. unfold channel_discipline in *.
      rewrite channel_stop in H.
      cbn [backend channel set_channel set_currentSource set_next_channel
           log_backend set_backend].
      rewrite live_channels_snoc, H. unfold play_call, new_channel.
      by destruct (is3d (params s)).
    + rewrite (play_missing name s He Hee Hr). by apply discipline_stop.
  - by rewrite (play_gate_closed name s Hgate).
Qed.

Lemma discipline_pause s : channel_discipline s → channel_discipline (pause s).
Proof.
  intros H. unfold pause. destruct (channel s) as [c|] eqn:Hc; [|done].
  by apply (discipline_call _ c).
Qed.

Lemma discipline_unpause s : channel_discipline s → channel_discipline (unpause s).
Proof.
  intros H. unfold unpause. destruct (channel s) as [c|] eqn:Hc; [|done].
  destruct (paused c); [|done].
  by apply (discipline_call _ c).
Qed.

Lemma channel3d_Some s c : channel3d s = Some c → channel s = Some c.
Proof.
  unfold channel3d. destruct (channel s) as [c'|]; [|done].
  destruct (ch_3d c'); [by intros [= ->] | done].
Qed.

Ltac discipline_setter H :=
  match goal with
  | |- channel_discipline (if ?b then _ else _) => destruct b; [|exact H]
  end;
  match goal with
  | |- channel_discipline (match channel ?t with _ => _ end) =>
      destruct (channel t) as [c|] eqn:Hc; [|exact H];
      by apply (discipline_log _ c)
  | |- channel_discipline (match channel3d ?t with _ => _ end) =>
      destruct (channel3d t) as [c|] eqn:Hc; [|exact H];
      apply channel3d_Some in Hc; by apply (discipline_log _ c)
  end.

Lemma discipline_setters s :
  channel_discipline s →
  (∀ v, channel_discipline (setLoop v s))
  ∧ (∀ v, channel_discipline (setVolume v s))
  ∧ (∀ v, channel_discipline (setPitch v s))
  ∧ (∀ v, channel_discipline (setMinDistance v s))
  ∧ (∀ v, channel_discipline (setMaxDistance v s))
  ∧ (∀ v, channel_discipline (setRollOffFactor v s))
  ∧ (∀ v, channel_discipline (setDistanceModel v s)).
Proof.
  intros H.
  assert (H' : ∀ p, channel_discipline (set_params p s)) by (intros p; exact H).
  repeat apply conj; intros v.
  - unfold setLoop, onSetLoop. discipline_setter (H' (Params_set_loop v (params s))).
  - unfold setVolume, onSetVolume. discipline_setter (H' (Params_set_volume v (params s))).
  - unfold setPitch, onSetPitch. discipline_setter (H' (Params_set_pitch v (params s))).
  - unfold setMinDistance, onSetMinDistance.
    discipline_setter (H' (Params_set_minDistance v (params s))).
  - unfold setMaxDistance, onSetMaxDistance.
    discipline_setter (H' (Params_set_maxDistance v (params s))).
  - unfold setRollOffFactor, onSetRollOffFactor.
    discipline_setter (H' (Params_set_rollOffFactor v (params s))).
  - unfold setDistanceModel, onSetDistanceModel.
    discipline_setter (H' (Params_set_distanceModel v (params s))).
Qed.

Lemma discipline_set_channel_flags p q s :
  channel_discipline s →
  channel_discipline
    (match channel s with
     | Some c => set_channel (Some (Channel_set_flags p q c)) s
     | None => s
     end).
Proof.
  intros H. unfold channel_discipline in *.
  destruct (channel s) as [c|] eqn:Hc; [|by rewrite Hc]. exact H.
Qed.

Lemma discipline_setPositional v s :
  channel_discipline s → channel_discipline (setPositional v s).
Proof.
  intros H. unfold setPositional, onSet3d.
  set (s1 := set_params _ s).
  assert (H1 : channel_discipline s1) by exact H.
  destruct (negb _); [|exact H1].
  destruct (initialized s1 && truthy (currentSource s1)); [|exact H1].
  destruct (match channel s1 with Some c => _ | None => _ end) as [p q].
  by apply discipline_set_channel_flags, discipline_play.
Qed.

Lemma discipline_onAssetChanged id attr v s :
  channel_discipline s → channel_discipline (onAssetChanged id attr v s).
Proof.
  intros H. unfold onAssetChanged.
  destruct (registry s !! id) as [a|]; [|exact H].
  destruct (String.eqb attr "resource"); [|exact H].
  set (s1 := dict_set _ _ _ s).
  assert (H1 : channel_discipline s1) by exact H.
  destruct (bool_decide _); [|exact H1].
  destruct (channel s1) as [c|]; [|exact H1].
  destruct (paused c).
  - by apply discipline_pause, discipline_play.
  - by apply discipline_play.
Qed.

Lemma discipline_onAssetRemoved id s :
  channel_discipline s → channel_discipline (onAssetRemoved id s).
Proof.
  intros H. unfold onAssetRemoved.
  destruct (registry s !! id) as [a|]; [|exact H].
  cbn zeta. set (s1 := set_registry _ s).
  assert (H1 : channel_discipline s1) by exact H.
  destruct (get_property (SourceMap s1) (name a)); [|exact H1].
  set (s2 := dict_delete _ _ s1).
  assert (H2 : channel_discipline s2) by exact H.
  destruct (bool_decide _); [|exact H2].
  apply (discipline_frame (stop s2)); [done..|]. by apply discipline_stop.
Qed.

Lemma discipline_onEnable s : channel_discipline s → channel_discipline (onEnable s).
Proof.
  intros H. unfold onEnable.
  destruct (load_loop_loads (assets s) s) as [ls ->].
  set (s1 := set_loads ls s).
  assert (H1 : channel_discipline s1) by exact H.
  destruct (initialized s1); [|exact H1].
  destruct (activate (params s1) && _).
  - by apply discipline_play.
  - by apply discipline_unpause.
Qed.

Lemma discipline_decrement b s : channel_discipline s → channel_discipline (decrement b s).
Proof.
  intros H. unfold decrement, update_batch. by destruct (batches s !! b).
Qed.

Lemma discipline__done b s : channel_discipline s → channel_discipline (_done b s).
Proof.
  intros H. unfold _done. destruct (batches s !! b) as [B|]; [|exact H].
  cbn zeta. set (s1 := set_completions _ _).
  assert (H1 : channel_discipline s1) by exact H.
  destruct (_ && _); [|exact H1]. by apply discipline_onEnable.
Qed.

Lemma discipline_settle b s :
  channel_discipline s →
  channel_discipline
    (let s1 := decrement b s in if (count b s1 =? 0)%Z then _done b s1 else s1).
Proof.
  intros H. cbn zeta. apply (discipline_decrement b) in H.
  destruct (_ =? _)%Z; [by apply discipline__done | exact H].
Qed.

Lemma discipline_call_ready cb nm r s :
  channel_discipline s → channel_discipline (call_ready cb nm r s).
Proof.
  intros H. destruct cb as [b|]; cbn [call_ready]; [|exact H].
  unfold ready_callback. destruct (batches s !! b) as [B|]; [|exact H].
  apply (discipline_settle b (dict_set (b_sources B) nm r s)). exact H.
Qed.

Lemma discipline_Asset_ready id cb s :
  channel_discipline s → channel_discipline (Asset_ready id cb s).
Proof.
  intros H. unfold Asset_ready. destruct (registry s !! id) as [a|]; [|exact H].
  destruct (resource a); [by apply discipline_call_ready | exact H].
Qed.

Lemma discipline_foldl {A} (f : State → A → State) (l : list A) :
  (∀ s x, channel_discipline s → channel_discipline (f s x)) →
  ∀ s, channel_discipline s → channel_discipline (foldl f s l).
Proof.
  intros Hf. induction l as [|x l IH]; intros s H; [done|].
  cbn [foldl]. by apply IH, Hf.
Qed.

Lemma discipline_forEach_body b s e :
  channel_discipline s → channel_discipline (forEach_body b s e).
Proof.
  intros H. destruct e as [id p]. unfold forEach_body. destruct p.
  - destruct (registry s !! id) as [a|]; [|exact H]. cbn zeta.
    set (s1 := update_batch _ _ s).
    assert (H1 : channel_discipline s1).
    { unfold s1, update_batch. by destruct (batches s !! b). }
    set (s2 := set_registry _ s1).
    assert (H2 : channel_discipline s2) by exact H1.
    apply (discipline_Asset_ready id (ready_batch b)) in H2.
    destruct (resource a); [exact H2|].
    destruct (_ && _); exact H2.
  - apply (discipline_settle b) in H. exact H.
Qed.

Lemma discipline_loadAudioSourceAssets ids s :
  channel_discipline s → channel_discipline (loadAudioSourceAssets ids s).
Proof.
  intros H. unfold loadAudioSourceAssets. cbn zeta.
  apply discipline_foldl; [intros; by apply discipline_forEach_body | exact H].
Qed.

Lemma discipline_unsubscribe_old s id :
  channel_discipline s → channel_discipline (unsubscribe_old s id).
Proof.
  intros H. unfold unsubscribe_old. destruct (String.eqb id ""); [exact H|].
  destruct (registry s !! id) as [a|]; [|exact H]. cbn zeta.
  set (s1 := set_registry _ s).
  assert (H1 : channel_discipline s1) by exact H.
  destruct (bool_decide _); [by apply discipline_stop | exact H1].
Qed.

Lemma discipline_setAssets inTools v s :
  channel_discipline s → channel_discipline (setAssets inTools v s).
Proof.
  intros H. unfold setAssets, onSetAssets. cbn zeta.
  set (s1 := foldl unsubscribe_old _ _).
  assert (H1 : channel_discipline s1).
  { apply discipline_foldl; [intros; by apply discipline_unsubscribe_old | exact H]. }
  destruct (_ && _); [by apply discipline_loadAudioSourceAssets | exact H1].
Qed.

Lemma discipline_deliver s e :
  channel_discipline s → channel_discipline (deliver s e).
Proof.
  intros H. destruct e as [id r|id|id attr v|id|id a]; cbn [deliver].
  - unfold fire_load. destruct (registry s !! id) as [a|]; [|exact H]. cbn zeta.
    apply discipline_foldl; [intros; by apply discipline_call_ready | exact H].
  - unfold fire. destruct (registry s !! id) as [a|]; [|exact H].
    apply discipline_foldl; [|exact H].
    intros t [| |b] Ht; cbn [call_listener]; [done..|]. by apply discipline_decrement.
  - unfold fire. destruct (registry s !! id) as [a|]; [|exact H].
    apply discipline_foldl; [|exact H].
    intros t [| |b] Ht; cbn [call_listener]; [|done..].
    by apply discipline_onAssetChanged.
  - apply (discipline_frame (fire id remove (asset_remove id) s)); [done..|].
    unfold fire. destruct (registry s !! id) as [a|]; [|exact H].
    apply discipline_foldl; [|exact H].
    intros t [| |b] Ht; cbn [call_listener]; [done| |done].
    by apply discipline_onAssetRemoved.
  - apply discipline_foldl; [|exact H].
    intros t _ Ht. unfold on_add.
    apply (discipline_Asset_ready id ready_late) in Ht.
    destruct (registry _ !! id) as [a'|]; [|exact Ht].
    destruct (resource a'); exact Ht.
Qed.

(** X25.  The component never leaks a channel.  Along every sequence
    of method calls, property assignments and registry events, the
    backend has at most one live channel, it is the component's
    [channel], and no call is ever made on a channel that was stopped:
    every channel the component creates is stopped before it is replaced
    or dropped. *)
Theorem channel_discipline_is_invariant (ops : list Operation) (s : State) :
  channel_discipline s → channel_discipline (foldl perform s ops).
Proof.
  revert s. induction ops as [|o ops IH]; intros s H; [exact H|].
  cbn [foldl]. apply IH.
  destruct o; cbn [perform].
  - by apply discipline_play.
  - by apply discipline_pause.
  - by apply discipline_unpause.
  - by apply discipline_stop.
  - by apply discipline_setters.
  - by apply discipline_setters.
  - by apply discipline_setters.
  - by apply discipline_setters.
  - by apply discipline_setters.
  - by apply discipline_setters.
  - by apply discipline_setters.
  - by apply discipline_setPositional.
  - by apply discipline_setAssets.
  - by apply discipline_onEnable.
  - by apply discipline_pause.
  - by apply discipline_deliver.
Qed.

Lemma channel_discipline_witness :
  let s := foldl perform (component registry_abc)
             [op_setAssets false ["b"]; op_event (asset_load "b" (Sound 7));
              op_setPositional true; op_onDisable; op_setVolume 2;
              op_event (asset_change "b" "resource" (Sound 8)); op_stop] in
  live_channels (backend s) = Some [] ∧ channel s = None ∧ length (backend s) = 9.
Proof.
  cbv zeta.
  assert (H0 : channel_discipline (component registry_abc)) by (vm_compute; reflexivity).
  pose proof (channel_discipline_is_invariant
    [op_setAssets false ["b"]; op_event (asset_load "b" (Sound 7));
     op_setPositional true; op_onDisable; op_setVolume 2;
     op_event (asset_change "b" "resource" (Sound 8)); op_stop] _ H0) as H.
  unfold channel_discipline in H.
  split; [etrans; [exact H | vm_compute; reflexivity]|].
  split; vm_compute; reflexivity.
Defined.
End ChannelDiscipline.

Section FinalizedOnce.

Import AudioSource.

(** ** [_done] runs at most once per batch *)

Lemma once_frame s s' : same_batches s s' → finalized_once s → finalized_once s'.
Proof. unfold finalized_once. by intros [-> ->]. Qed.

Lemma same_batches_refl s : same_batches s s.
Proof. done. Qed.

Lemma same_batches_trans s1 s2 s3 :
  same_batches s1 s2 → same_batches s2 s3 → same_batches s1 s3.
Proof. intros [H1 H2] [H3 H4]. split; congruence. Qed.

Lemma same_batches_play name s : same_batches s (play name s).
Proof. by destruct (play_nf name s) as (c & cs & nc & bk & -> & _). Qed.

Lemma same_batches_pause s : same_batches s (pause s).
Proof. by destruct (pause_nf s) as (c & bk & ->). Qed.

Lemma same_batches_unpause s : same_batches s (unpause s).
Proof. by destruct (unpause_nf s) as (c & bk & ->). Qed.

Lemma same_batches_stop s : same_batches s (stop s).
Proof. by rewrite stop_eq. Qed.

Lemma same_batches_onEnable s : same_batches s (onEnable s).
Proof. by destruct (onEnable_nf s) as (c & nc & bk & ls & ->). Qed.

Ltac same_batches_setter :=
  match goal with
  | |- same_batches _ (if ?b then _ else _) => destruct b; [|done]
  end;
  match goal with
  | |- same_batches _ (match ?c with _ => _ end) => by destruct c
  end.

Lemma same_batches_setters s :
  (∀ v, same_batches s (setLoop v s))
  ∧ (∀ v, same_batches s (setVolume v s))
  ∧ (∀ v, same_batches s (setPitch v s))
  ∧ (∀ v, same_batches s (setMinDistance v s))
  ∧ (∀ v, same_batches s (setMaxDistance v s))
  ∧ (∀ v, same_batches s (setRollOffFactor v s))
  ∧ (∀ v, same_batches s (setDistanceModel v s)).
Proof.
  repeat apply conj; intros v.
  - unfold setLoop, onSetLoop. same_batches_setter.
  - unfold setVolume, onSetVolume. same_batches_setter.
  - unfold setPitch, onSetPitch. same_batches_setter.
  - unfold setMinDistance, onSetMinDistance. same_batches_setter.
  - unfold setMaxDistance, onSetMaxDistance. same_batches_setter.
  - unfold setRollOffFactor, onSetRollOffFactor. same_batches_setter.
  - unfold setDistanceModel, onSetDistanceModel. same_batches_setter.
Qed.

Lemma same_batches_setPositional v s : same_batches s (setPositional v s).
Proof.
  unfold setPositional, onSet3d. set (s1 := set_params _ s).
  destruct (negb _); [|done].
  destruct (initialized s1 && truthy (currentSource s1)); [|done].
  destruct (match channel s1 with Some c => _ | None => _ end) as [p q].
  pose proof (same_batches_play (currentSource s1) s1) as H.
  destruct (channel (play (currentSource s1) s1)); exact H.
Qed.

Lemma same_batches_onAssetChanged id attr v s : same_batches s (onAssetChanged id attr v s).
Proof.
  unfold onAssetChanged.
  destruct (registry s !! id) as [a|]; [|done].
  destruct (String.eqb attr "resource"); [|done].
  set (s1 := dict_set _ _ _ s).
  destruct (bool_decide _); [|done].
  destruct (channel s1) as [c|]; [|done].
  destruct (paused c).
  - apply (same_batches_trans _ s1); [done|].
    apply (same_batches_trans _ (play (Some (name a)) s1));
      [apply same_batches_play | apply same_batches_pause].
  - apply (same_batches_trans _ s1); [done | apply same_batches_play].
Qed.

Lemma same_batches_onAssetRemoved id s : same_batches s (onAssetRemoved id s).
Proof.
  unfold onAssetRemoved.
  destruct (registry s !! id) as [a|]; [|done].
  cbn zeta. set (s1 := set_registry _ s).
  destruct (get_property (SourceMap s1) (name a)); [|done].
  set (s2 := dict_delete _ _ s1).
  destruct (bool_decide _); [|done].
  rewrite stop_eq. done.
Qed.

Lemma once_update_batch b f s :
  (∀ B, (b_count (f B) ≤ b_count B)%Z) →
  finalized_once s → finalized_once (update_batch b f s).
Proof.
  intros Hf [Hnd Hc]. unfold update_batch.
  destruct (batches s !! b) as [B|] eqn:HB; [|done].
  split; [exact Hnd|]. intros b' Hin. cbn [completions batches set_batches] in *.
  destruct (decide (b' = b)) as [->|Hne].
  - rewrite lookup_insert_eq. eexists. split; [done|].
    destruct (Hc b Hin) as (B' & HB' & Hle). rewrite HB in HB'. injection HB' as <-.
    specialize (Hf B). lia.
  - rewrite lookup_insert_ne by done. by apply Hc.
Qed.

Lemma once_decrement b s : finalized_once s → finalized_once (decrement b s).
Proof. apply once_update_batch. intros B. cbn. lia. Qed.

Lemma once_settle b s :
  finalized_once s →
  finalized_once
    (let s1 := decrement b s in if (count b s1 =? 0)%Z then _done b s1 else s1).
Proof.
  intros H. cbn zeta.
  pose proof (once_decrement b s H) as H1.
  destruct (batches s !! b) as [B|] eqn:HB.
  - assert (E1 : decrement b s
                 = set_batches (<[b := Batch_set_count (b_count B - 1) B]> (batches s)) s).
    { unfold decrement, update_batch. by rewrite HB. }
    assert (HB1 : batches (decrement b s) !! b = Some (Batch_set_count (b_count B - 1) B)).
    { rewrite E1. apply lookup_insert_eq. }
    assert (Hcount : count b (decrement b s) = (b_count B - 1)%Z).
    { unfold count. by rewrite HB1. }
    rewrite Hcount. destruct (Z.eqb_spec (b_count B - 1) 0) as [Hz|Hz]; [|exact H1].
    destruct (_done_nf b _ _ HB1) as (c & nc & bk & ls & ->).
    destruct H1 as [Hnd Hc]. destruct H as [_ Hc0].
    assert (Hnin : b ∉ completions (decrement b s)).
    { rewrite E1. cbn. intros Hin. destruct (Hc0 b Hin) as (B' & HB' & Hle).
      rewrite HB in HB'. injection HB' as <-. lia. }
    split.
    + cbn. apply NoDup_app. split; [exact Hnd|]. split; [|apply NoDup_singleton].
      intros x Hx Hx'. apply list_elem_of_singleton in Hx' as ->. done.
    + intros b' Hin. cbn in Hin |- *. apply elem_of_app in Hin as [Hin|Hin].
      * by apply Hc.
      * apply list_elem_of_singleton in Hin as ->. eexists. split; [exact HB1|].
        cbn. lia.
  - assert (E1 : decrement b s = s) by (unfold decrement, update_batch; by rewrite HB).
    rewrite E1. destruct (_ =? _)%Z; [|exact H].
    unfold _done. by rewrite HB.
Qed.

Lemma once_call_ready cb nm r s : finalized_once s → finalized_once (call_ready cb nm r s).
Proof.
  intros H. destruct cb as [b|]; cbn [call_ready]; [|exact H].
  unfold ready_callback. destruct (batches s !! b) as [B|]; [|exact H].
  apply (once_settle b (dict_set (b_sources B) nm r s)). exact H.
Qed.

Lemma once_Asset_ready id cb s : finalized_once s → finalized_once (Asset_ready id cb s).
Proof.
  intros H. unfold Asset_ready. destruct (registry s !! id) as [a|]; [|exact H].
  destruct (resource a); [by apply once_call_ready | exact H].
Qed.

Lemma once_foldl {A} (f : State → A → State) (l : list A) :
  (∀ s x, finalized_once s → finalized_once (f s x)) →
  ∀ s, finalized_once s → finalized_once (foldl f s l).
Proof.
  intros Hf. induction l as [|x l IH]; intros s H; [done|].
  cbn [foldl]. by apply IH, Hf.
Qed.

Lemma once_forEach_body b s e : finalized_once s → finalized_once (forEach_body b s e).
Proof.
  intros H. destruct e as [id p]. unfold forEach_body. destruct p.
  - destruct (registry s !! id) as [a|]; [|exact H]. cbn zeta.
    set (s1 := update_batch _ _ s).
    assert (H1 : finalized_once s1) by (apply once_update_batch; [intros; cbn; lia | exact H]).
    set (s2 := set_registry _ s1).
    assert (H2 : finalized_once s2) by exact H1.
    apply (once_Asset_ready id (ready_batch b)) in H2.
    destruct (resource a); [exact H2|].
    destruct (_ && _); exact H2.
  - apply (once_settle b) in H. exact H.
Qed.

Lemma once_loadAudioSourceAssets ids s :
  finalized_once s → finalized_once (loadAudioSourceAssets ids s).
Proof.
  intros [Hnd Hc]. unfold loadAudioSourceAssets. cbn zeta.
  apply once_foldl; [intros; by apply once_forEach_body|].
  split; [exact Hnd|]. intros b Hin. cbn in Hin |- *.
  destruct (Hc b Hin) as (B & HB & Hle). exists B. split; [|done].
  rewrite lookup_insert_ne; [done|]. intros <-.
  pose proof (is_fresh (dom (batches s))) as Hf.
  apply Hf. apply elem_of_dom. by eexists.
Qed.

Lemma once_unsubscribe_old s id : finalized_once s → finalized_once (unsubscribe_old s id).
Proof.
  intros H. unfold unsubscribe_old. destruct (String.eqb id ""); [exact H|].
  destruct (registry s !! id) as [a|]; [|exact H]. cbn zeta.
  set (s1 := set_registry _ s).
  destruct (bool_decide _); [|exact H].
  apply (once_frame s1); [apply same_batches_stop | exact H].
Qed.

Lemma once_setAssets inTools v s : finalized_once s → finalized_once (setAssets inTools v s).
Proof.
  intros H. unfold setAssets, onSetAssets. cbn zeta.
  set (s1 := foldl unsubscribe_old _ _).
  assert (H1 : finalized_once s1).
  { apply once_foldl; [intros; by apply once_unsubscribe_old | exact H]. }
  destruct (_ && _); [by apply once_loadAudioSourceAssets | exact H1].
Qed.

Lemma once_deliver s e : finalized_once s → finalized_once (deliver s e).
Proof.
  intros H. destruct e as [id r|id|id attr v|id|id a]; cbn [deliver].
  - unfold fire_load. destruct (registry s !! id) as [a|]; [|exact H]. cbn zeta.
    apply once_foldl; [intros; by apply once_call_ready | exact H].
  - unfold fire. destruct (registry s !! id) as [a|]; [|exact H].
    apply once_foldl; [|exact H].
    intros t [| |b] Ht; cbn [call_listener]; [done..|]. by apply once_decrement.
  - unfold fire. destruct (registry s !! id) as [a|]; [|exact H].
    apply once_foldl; [|exact H].
    intros t [| |b] Ht; cbn [call_listener]; [|done..].
    apply (once_frame t); [apply same_batches_onAssetChanged | exact Ht].
  - apply (once_frame (fire id remove (asset_remove id) s)); [done|].
    unfold fire. destruct (registry s !! id) as [a|]; [|exact H].
    apply once_foldl; [|exact H].
    intros t [| |b] Ht; cbn [call_listener]; [done| |done].
    apply (once_frame t); [apply same_batches_onAssetRemoved | exact Ht].
  - apply once_foldl; [|exact H].
    intros t _ Ht. unfold on_add.
    apply (once_Asset_ready id ready_late) in Ht.
    destruct (registry _ !! id) as [a'|]; [|exact Ht].
    destruct (resource a'); exact Ht.
Qed.

(** X26.  A batch finalizes at most once.  Along every sequence of
    method calls, property assignments and registry events, also with
    errors, repeated loads and events that arrive after the batch has
    finalized, no batch runs [_done] twice: the list of completions has
    no duplicate, and the count of a finalized batch is never positive
    again. *)
Theorem a_batch_finalizes_at_most_once (ops : list Operation) (s : State) :
  finalized_once s → finalized_once (foldl perform s ops).
Proof.
  revert s. induction ops as [|o ops IH]; intros s H; [exact H|].
  cbn [foldl]. apply IH.
  destruct o; cbn [perform].
  - apply (once_frame s); [apply same_batches_play | exact H].
  - apply (once_frame s); [apply same_batches_pause | exact H].
  - apply (once_frame s); [apply same_batches_unpause | exact H].
  - apply (once_frame s); [apply same_batches_stop | exact H].
  - apply (once_frame s); [apply same_batches_setters | exact H].
  - apply (once_frame s); [apply same_batches_setters | exact H].
  - apply (once_frame s); [apply same_batches_setters | exact H].
  - apply (once_frame s); [apply same_batches_setters | exact H].
  - apply (once_frame s); [apply same_batches_setters | exact H].
  - apply (once_frame s); [apply same_batches_setters | exact H].
  - apply (once_frame s); [apply same_batches_setters | exact H].
  - apply (once_frame s); [apply same_batches_setPositional | exact H].
  - by apply once_setAssets.
  - apply (once_frame s); [apply same_batches_onEnable | exact H].
  - apply (once_frame s); [apply same_batches_pause | exact H].
  - by apply once_deliver.
Qed.

Lemma a_batch_finalizes_at_most_once_witness :
  let s := foldl perform (component registry_abc)
             [op_setAssets false ["a"; "b"]; op_event (asset_load "a" (Sound 1));
              op_event (asset_load "b" (Sound 2)); op_event (asset_error "a");
              op_event (asset_load "b" (Sound 3)); op_event (asset_error "b")] in
  NoDup (completions s) ∧ completions s = [0] ∧ count 0 s = (-2)%Z.
Proof.
  cbv zeta.
  assert (H0 : finalized_once (component registry_abc)).
  { split; [apply NoDup_nil_2|]. intros b Hb. by apply elem_of_nil in Hb. }
  pose proof (a_batch_finalizes_at_most_once
    [op_setAssets false ["a"; "b"]; op_event (asset_load "a" (Sound 1));
     op_event (asset_load "b" (Sound 2)); op_event (asset_error "a");
     op_event (asset_load "b" (Sound 3)); op_event (asset_error "b")] _ H0) as [H _].
  split; [exact H|]. split; vm_compute; reflexivity.
Defined.

End FinalizedOnce.
